(** * Plan limits, quota checks and AppSumo code redemption

    A shallow embedding of the plan-limit resolver and quota enforcer
    (the JavaScript plan-limits module: [PLAN_LIMITS], [getOrgLimits],
    [getPlanLimits], [getUsagePercent], [checkLimit]) and of the stored
    procedures of [database/migration_appsumo_plans.sql]
    ([get_current_usage], [increment_usage], [redeem_appsumo_code],
    [check_appsumo_code]).

    JavaScript numbers are IEEE 754 binary64 values, embedded as Rocq's
    primitive floats; objects live in a heap of property maps so that
    aliasing of the catalog singleton is visible; PostgreSQL tables are
    lists of rows, and a stored procedure either returns a value with the
    new database or raises an error that rolls the call back. *)

From Stdlib Require Import ZArith Ascii PrimFloat FloatOps SpecFloat Uint63.
From Stdlib Require FloatAxioms.
From stdpp Require Import gmap strings pretty list.

Local Open Scope Z_scope.

(** ** JavaScript side *)

Module Js.

(** *** Numbers *)

(** Conversion of an integer to the number with the same value; exact when
    [|n| < 2^53], which is all the embedding uses it for. *)
Definition float_of_Z (n : Z) : float :=
  if n <? 0 then PrimFloat.opp (PrimFloat.of_uint63 (Uint63.of_Z (- n)))
  else PrimFloat.of_uint63 (Uint63.of_Z n).

(** [Math.round]: the integer nearest to [x], ties towards +infinity; NaN,
    the infinities and the zeros are returned as they are, and a result
    that rounds to zero from below is -0.  A finite binary64 value is
    [(-1)^s * m * 2^e]; the rounding [floor (x + 1/2)] is computed exactly
    on that representation. *)
Definition Math_round (x : float) : float :=
  match Prim2SF x with
  | S754_finite s m e =>
      if 0 <=? e then x
      else
        let d := 2 ^ (- e) in
        let twice := if s then - (2 * Z.pos m) else 2 * Z.pos m in
        let n := (twice + d) `div` (2 * d) in
        if n =? 0 then (if s then neg_zero else zero) else float_of_Z n
  | _ => x
  end.

(** *** Values, objects and the heap *)

Definition loc := nat.

(** The values the module handles.  [VRef] is a reference to a heap
    object.  [VInherited k] is the member named [k] that every plain object
    inherits from [Object.prototype] (a built-in function, or the prototype
    object itself for [__proto__]): all that the code below can observe of
    it is that it is truthy. *)
Inductive value :=
| VUndefined
| VNull
| VBool (b : bool)
| VNum (x : float)
| VStr (s : string)
| VRef (l : loc)
| VInherited (k : string).

(** An object: its own enumerable properties. *)
Abbreviation obj := (gmap string value).
Abbreviation heap := (list obj).

(** Property names found on [Object.prototype]. *)
Definition object_prototype_keys : list string :=
  [ "constructor"; "__defineGetter__"; "__defineSetter__"; "hasOwnProperty";
    "__lookupGetter__"; "__lookupSetter__"; "isPrototypeOf";
    "propertyIsEnumerable"; "toString"; "valueOf"; "__proto__";
    "toLocaleString" ].

(** [o[k]] on a plain object: the own property, else the inherited member,
    else [undefined]. *)
Definition obj_get (o : obj) (k : string) : value :=
  match o !! k with
  | Some v => v
  | None =>
      if bool_decide (k ∈ object_prototype_keys) then VInherited k
      else VUndefined
  end.

(** ToBoolean. *)
Definition truthy (v : value) : bool :=
  match v with
  | VUndefined | VNull => false
  | VBool b => b
  | VNum x => negb (PrimFloat.eqb x 0 || PrimFloat.is_nan x)
  | VStr s => negb (String.eqb s "")
  | VRef _ | VInherited _ => true
  end.

(** [a || b] with both operands already evaluated (every use below has a
    right operand without effects that matter when the left one is
    truthy, or is written out with the monad). *)
Definition js_or (a b : value) : value := if truthy a then a else b.

(** [v === n] for a number literal [n]. *)
Definition strict_eq_num (v : value) (n : float) : bool :=
  match v with
  | VNum x => PrimFloat.eqb x n
  | _ => false
  end.

(** [v === s] for a string literal [s]. *)
Definition strict_eq_str (v : value) (s : string) : bool :=
  match v with
  | VStr t => String.eqb t s
  | _ => false
  end.

(** ToNumber on the values that have no string or object conversion;
    strings (numeric-literal parsing) and objects (ToPrimitive) are outside
    the embedded fragment. *)
Definition ToNumber (v : value) : option float :=
  match v with
  | VUndefined => Some nan
  | VNull => Some 0%float
  | VBool b => Some (if b then 1%float else 0%float)
  | VNum x => Some x
  | VStr _ | VRef _ | VInherited _ => None
  end.

(** *** Outcomes *)

Inductive js_error := TypeError.

(** A call returns, throws, or leaves the embedded fragment. *)
Inductive outcome (A : Type) :=
| Ok (a : A)
| Throw (e : js_error)
| Unsupported.
Arguments Ok {A} a.
Arguments Throw {A} e.
Arguments Unsupported {A}.

Definition M (A : Type) : Type := heap → outcome (A * heap).

#[export] Instance M_ret : MRet M := λ A a h, Ok (a, h).
#[export] Instance M_bind : MBind M := λ A B f m h,
  match m h with
  | Ok (a, h') => f a h'
  | Throw e => Throw e
  | Unsupported => Unsupported
  end.

Definition throw {A} (e : js_error) : M A := λ _, Throw e.
Definition unsupported {A} : M A := λ _, Unsupported.

Definition lift_num (o : option float) : M float :=
  match o with
  | Some x => mret x
  | None => unsupported
  end.

(** [v[k]]: reading a property of [undefined] or [null] throws. *)
Definition get_prop (v : value) (k : string) : M value := λ h,
  match v with
  | VRef l =>
      match h !! l with
      | Some o => Ok (obj_get o k, h)
      | None => Unsupported
      end
  | VUndefined | VNull => Throw TypeError
  | VBool _ | VNum _ | VStr _ | VInherited _ => Unsupported
  end.

(** Allocation of a fresh object. *)
Definition alloc (o : obj) : M value := λ h, Ok (VRef (length h), h ++ [o]).

(** The own enumerable properties copied by [...v] in an object literal. *)
Definition spread (v : value) : M obj := λ h,
  match v with
  | VRef l =>
      match h !! l with
      | Some o => Ok (o, h)
      | None => Unsupported
      end
  | VUndefined | VNull | VBool _ | VNum _ | VInherited _ => Ok (∅, h)
  | VStr _ => Unsupported
  end.

(** *** The catalog: [PLAN_LIMITS] *)

Local Open Scope float_scope.

Definition PLAN_LIMITS_free : obj := list_to_map
  [ ("name", VStr "Free"); ("projects", VNum 1); ("automations", VNum 3);
    ("customers", VNum 100); ("emails_monthly", VNum 500);
    ("sms_monthly", VNum 0); ("ai_analyses", VNum 10);
    ("team_members", VNum 1); ("api_access", VBool false);
    ("webhooks", VBool false); ("priority_support", VBool false) ].

Definition PLAN_LIMITS_subscription_growth : obj := list_to_map
  [ ("name", VStr "Growth"); ("price_monthly", VNum 39);
    ("price_annual", VNum 31); ("projects", VNum 5);
    ("automations", VNum 15); ("customers", VNum 2000);
    ("emails_monthly", VNum 5000); ("sms_monthly", VNum 0);
    ("ai_analyses", VNum 50); ("team_members", VNum 3);
    ("api_access", VBool false); ("webhooks", VBool false);
    ("priority_support", VBool false) ].

Definition PLAN_LIMITS_subscription_business : obj := list_to_map
  [ ("name", VStr "Business"); ("price_monthly", VNum 99);
    ("price_annual", VNum 79); ("projects", VNum 15);
    ("automations", VNum 50); ("customers", VNum 10000);
    ("emails_monthly", VNum 25000); ("sms_monthly", VNum 0);
    ("ai_analyses", VNum 200); ("team_members", VNum 10);
    ("api_access", VBool true); ("webhooks", VBool true);
    ("priority_support", VBool true) ].

Definition PLAN_LIMITS_subscription_enterprise : obj := list_to_map
  [ ("name", VStr "Enterprise"); ("price_monthly", VNum 249);
    ("price_annual", VNum 199); ("projects", VNum (-1));
    ("automations", VNum (-1)); ("customers", VNum 50000);
    ("emails_monthly", VNum 100000); ("sms_monthly", VNum 1000);
    ("ai_analyses", VNum (-1)); ("team_members", VNum (-1));
    ("api_access", VBool true); ("webhooks", VBool true);
    ("priority_support", VBool true); ("dedicated_support", VBool true);
    ("sla", VBool true) ].

Definition PLAN_LIMITS_appsumo_1 : obj := list_to_map
  [ ("name", VStr "Lifetime Tier 1"); ("badge", VStr "AppSumo");
    ("projects", VNum 3); ("automations", VNum 10);
    ("customers", VNum 1000); ("emails_monthly", VNum 3000);
    ("sms_monthly", VNum 0); ("ai_analyses", VNum 30);
    ("team_members", VNum 2); ("api_access", VBool false);
    ("webhooks", VBool false); ("priority_support", VBool false) ].

Definition PLAN_LIMITS_appsumo_2 : obj := list_to_map
  [ ("name", VStr "Lifetime Tier 2"); ("badge", VStr "AppSumo");
    ("projects", VNum 10); ("automations", VNum 30);
    ("customers", VNum 5000); ("emails_monthly", VNum 15000);
    ("sms_monthly", VNum 0); ("ai_analyses", VNum 100);
    ("team_members", VNum 5); ("api_access", VBool true);
    ("webhooks", VBool false); ("priority_support", VBool true) ].

Definition PLAN_LIMITS_appsumo_3 : obj := list_to_map
  [ ("name", VStr "Lifetime Tier 3"); ("badge", VStr "AppSumo");
    ("projects", VNum 25); ("automations", VNum (-1));
    ("customers", VNum 15000); ("emails_monthly", VNum 50000);
    ("sms_monthly", VNum 0); ("ai_analyses", VNum 300);
    ("team_members", VNum 10); ("api_access", VBool true);
    ("webhooks", VBool true); ("priority_support", VBool true);
    ("white_label", VBool true) ].

(** Heap addresses of the catalog's objects.  [PLAN_LIMITS] is a [const]
    binding: the name always denotes the same object, whose properties
    remain mutable like those of any object. *)
Definition PLAN_LIMITS : loc := 0%nat.
Definition free_loc : loc := 1%nat.
Definition subscription_loc : loc := 2%nat.
Definition growth_loc : loc := 3%nat.
Definition business_loc : loc := 4%nat.
Definition enterprise_loc : loc := 5%nat.
Definition appsumo_loc : loc := 6%nat.
Definition appsumo_1_loc : loc := 7%nat.
Definition appsumo_2_loc : loc := 8%nat.
Definition appsumo_3_loc : loc := 9%nat.

Definition PLAN_LIMITS_object : obj := list_to_map
  [ ("free", VRef free_loc); ("subscription", VRef subscription_loc);
    ("appsumo", VRef appsumo_loc) ].

Definition PLAN_LIMITS_subscription : obj := list_to_map
  [ ("growth", VRef growth_loc); ("business", VRef business_loc);
    ("enterprise", VRef enterprise_loc) ].

Definition PLAN_LIMITS_appsumo : obj := list_to_map
  [ ("1", VRef appsumo_1_loc); ("2", VRef appsumo_2_loc);
    ("3", VRef appsumo_3_loc) ].

(** The heap right after the module has been loaded. *)
Definition initial_heap : heap :=
  [ PLAN_LIMITS_object; PLAN_LIMITS_free; PLAN_LIMITS_subscription;
    PLAN_LIMITS_subscription_growth; PLAN_LIMITS_subscription_business;
    PLAN_LIMITS_subscription_enterprise; PLAN_LIMITS_appsumo;
    PLAN_LIMITS_appsumo_1; PLAN_LIMITS_appsumo_2; PLAN_LIMITS_appsumo_3 ].

(** The catalog is as the module created it; the heap may hold any number
    of further objects. *)
Definition catalog_intact (h : heap) : Prop := initial_heap `prefix_of` h.

(** *** Organizations *)

(** The organization object handed to the resolver: the columns the
    dashboard selects, with SQL NULL as [None].  [appsumo_tier] is an
    INTEGER column, [plan_type] and [subscription_tier] are TEXT,
    [plan_limits_override] is a JSON object. *)
Record organization := {
  plan_type : option string;
  appsumo_tier : option Z;
  subscription_tier : option string;
  plan_limits_override : option obj
}.

Definition text_value (s : option string) : value :=
  match s with
  | Some t => VStr t
  | None => VNull
  end.

(** ToPropertyKey of the two tier fields. *)
Definition int_key (n : option Z) : string :=
  match n with
  | Some z => pretty z
  | None => "null"
  end.

Definition text_key (s : option string) : string :=
  match s with
  | Some t => t
  | None => "null"
  end.

(** *** Helper functions *)

(** [getPlanLimits]: base plan limits without overrides. *)
Definition getPlanLimits (org : option organization) : M value :=
  match org with
  | None => get_prop (VRef PLAN_LIMITS) "free"
  | Some o =>
      let plan := text_value (plan_type o) in
      if strict_eq_str plan "appsumo_lifetime" then
        tiers ← get_prop (VRef PLAN_LIMITS) "appsumo";
        entry ← get_prop tiers (int_key (appsumo_tier o));
        if truthy entry then mret entry
        else
          tiers' ← get_prop (VRef PLAN_LIMITS) "appsumo";
          get_prop tiers' "1"
      else if strict_eq_str plan "subscription" then
        tiers ← get_prop (VRef PLAN_LIMITS) "subscription";
        entry ← get_prop tiers (text_key (subscription_tier o));
        if truthy entry then mret entry
        else
          tiers' ← get_prop (VRef PLAN_LIMITS) "subscription";
          get_prop tiers' "growth"
      else get_prop (VRef PLAN_LIMITS) "free"
  end.

(** [getOrgLimits]: limits for an organization based on its plan, with the
    custom override spread over a copy of the base limits. *)
Definition getOrgLimits (org : option organization) : M value :=
  match org with
  | None => get_prop (VRef PLAN_LIMITS) "free"
  | Some o =>
      match plan_limits_override o with
      | Some override =>
          base ← getPlanLimits org;
          props ← spread base;
          alloc (override ∪ props)
      | None => getPlanLimits org
      end
  end.

Definition isUnlimited (v : value) : bool := strict_eq_num v (-1).

(** [a + b] and [a > b] on operands that convert to numbers without string
    or object conversion. *)
Definition js_add (a b : value) : M value :=
  x ← lift_num (ToNumber a);
  y ← lift_num (ToNumber b);
  mret (VNum (x + y)).

Definition js_gt (a b : value) : M bool :=
  x ← lift_num (ToNumber a);
  y ← lift_num (ToNumber b);
  mret (PrimFloat.ltb y x).

(** [getUsagePercent]: usage percentage (0-100+). *)
Definition getUsagePercent (used limit : value) : M float :=
  if strict_eq_num limit (-1) then mret 0
  else if strict_eq_num limit 0 then
    above ← js_gt used (VNum 0);
    mret (if above : bool then 100 else 0)
  else
    u ← lift_num (ToNumber used);
    l ← lift_num (ToNumber limit);
    mret (Math_round ((u / l) * 100)).

(** [getUsageStatus]: status class for a percentage. *)
Definition getUsageStatus (percent : float) : string :=
  if PrimFloat.leb 100 percent then "critical"
  else if PrimFloat.leb 80 percent then "warning"
  else if PrimFloat.leb 50 percent then "moderate"
  else "healthy".

(** Text built by a template literal: literal pieces, values converted by
    ToString, and values rendered by [toLocaleString] (whose digits and
    separators depend on the host locale and are kept symbolic). *)
Inductive piece :=
| Lit (s : string)
| Str (v : value)
| Locale (v : value).

Definition message := list piece.

(** [formatLimit]: limit for display. *)
Definition formatLimit (v : value) : M piece :=
  if strict_eq_num v (-1) then mret (Lit "Unlimited")
  else if strict_eq_num v 0 then mret (Lit "—")
  else
    match v with
    | VUndefined | VNull => throw TypeError
    | VBool _ | VNum _ | VStr _ => mret (Locale v)
    | VRef _ | VInherited _ => unsupported
    end.

Definition names : obj := list_to_map
  [ ("projects", VStr "projects"); ("automations", VStr "automations");
    ("customers", VStr "customers"); ("emails_monthly", VStr "monthly emails");
    ("sms_monthly", VStr "monthly SMS"); ("ai_analyses", VStr "AI analyses");
    ("team_members", VStr "team members") ].

(** [formatLimitName]: human-readable limit name. *)
Definition formatLimitName (limitType : string) : value :=
  js_or (obj_get names limitType) (VStr limitType).

(** [getLimitMessage]: limit exceeded message based on plan type. *)
Definition getLimitMessage (limitType : string) (limit planType : value)
  : M message :=
  let name := formatLimitName limitType in
  if strict_eq_str planType "appsumo_lifetime" then
    shown ← formatLimit limit;
    mret [ Lit "You've reached your "; Str name; Lit " limit ("; shown;
           Lit "). Stack another AppSumo code or upgrade to a subscription for more capacity." ]
  else if strict_eq_str planType "subscription" then
    shown ← formatLimit limit;
    mret [ Lit "You've reached your "; Str name; Lit " limit ("; shown;
           Lit "). Upgrade to a higher tier for more capacity." ]
  else
    shown ← formatLimit limit;
    mret [ Lit "You've reached your "; Str name; Lit " limit ("; shown;
           Lit "). Upgrade to unlock more capacity." ].

(** The object [checkLimit] returns; a property the object literal does not
    have is [None]. *)
Record limit_check := {
  allowed : bool;
  warning : option bool;
  message_of : option message;
  upgradeRequired : option bool;
  current : option value;
  limit_of : option value
}.

(** [checkLimit]: can the action be performed within the limits?  The
    default [increment = 1] applies when the argument is [undefined]. *)
Definition checkLimit (org : option organization) (usage : obj)
    (limitType : string) (increment : value) : M limit_check :=
  let increment :=
    match increment with
    | VUndefined => VNum 1
    | v => v
    end in
  limits ← getOrgLimits org;
  limit ← get_prop limits limitType;
  if strict_eq_num limit (-1) then
    mret {| allowed := true; warning := None; message_of := None;
            upgradeRequired := None; current := None; limit_of := None |}
  else
    let currentUsage := js_or (obj_get usage limitType) (VNum 0) in
    newUsage ← js_add currentUsage increment;
    over ← js_gt newUsage limit;
    if over : bool then
      planType ← match org with
                 | Some o => mret (text_value (plan_type o))
                 | None => throw TypeError
                 end;
      msg ← getLimitMessage limitType limit planType;
      mret {| allowed := false; warning := None; message_of := Some msg;
              upgradeRequired := Some true; current := Some currentUsage;
              limit_of := Some limit |}
    else
      percent ← getUsagePercent newUsage limit;
      if PrimFloat.leb 80 percent && PrimFloat.ltb percent 100 then
        mret {| allowed := true; warning := Some true;
                message_of :=
                  Some [ Lit "You're at "; Str (VNum percent);
                         Lit "% of your "; Str (formatLimitName limitType);
                         Lit " limit." ];
                upgradeRequired := None; current := Some newUsage;
                limit_of := Some limit |}
      else
        mret {| allowed := true; warning := None; message_of := None;
                upgradeRequired := None; current := Some newUsage;
                limit_of := Some limit |}.

(** [getUpgradeOptions]: upgrade options based on the current plan.  The
    options are built in a local array; the subscription tiers with an
    upgrade are the own keys of the local table [upgrades].  In
    [org.appsumo_tier < 3] a NULL tier converts to 0.  An inherited member
    found under the tier's name has no [name], [price] or [tier] of the
    table's kind: that case is outside the embedded fragment. *)
Record upgrade_option := {
  type : string;
  label : string;
  description : string;
  action : string;
  tier : option string
}.

Record upgrade_entry := {
  upgrade_tier : string;
  upgrade_name : string;
  upgrade_price : Z
}.

Definition upgrades : gmap string upgrade_entry := list_to_map
  [ ("growth", {| upgrade_tier := "business"; upgrade_name := "Business";
                  upgrade_price := 99%Z |});
    ("business", {| upgrade_tier := "enterprise";
                    upgrade_name := "Enterprise"; upgrade_price := 249%Z |}) ].

Definition below_3 (n : option Z) : bool :=
  match n with
  | Some z => (z <? 3)%Z
  | None => true
  end.

Definition getUpgradeOptions (org : option organization)
  : outcome (list upgrade_option) :=
  match org with
  | None => Throw TypeError
  | Some o =>
      let plan := text_value (plan_type o) in
      if strict_eq_str plan "appsumo_lifetime" then
        let stack :=
          if below_3 (appsumo_tier o) then
            [ {| type := "stack_code"; label := "Stack Another Code";
                 description :=
                   "Redeem another AppSumo code to increase your limits";
                 action := "redeem"; tier := None |} ]
          else [] in
        Ok (stack ++
            [ {| type := "subscription"; label := "Switch to Monthly";
                 description :=
                   "Get unlimited growth with a monthly subscription";
                 action := "upgrade"; tier := None |} ])
      else if strict_eq_str plan "subscription" then
        match upgrades !! text_key (subscription_tier o) with
        | Some upgrade =>
            Ok [ {| type := "upgrade_tier";
                    label := "Upgrade to " +:+ upgrade_name upgrade;
                    description :=
                      "$" +:+ pretty (upgrade_price upgrade)
                      +:+ "/month - More projects, automations, and customers";
                    action := "upgrade";
                    tier := Some (upgrade_tier upgrade) |} ]
        | None =>
            if bool_decide (text_key (subscription_tier o)
                            ∈ object_prototype_keys)
            then Unsupported
            else Ok []
        end
      else
        Ok [ {| type := "subscription"; label := "Upgrade to Growth";
                description :=
                  "$39/month - 5 projects, 2,000 customers, 5,000 emails";
                action := "upgrade"; tier := Some "growth" |};
             {| type := "appsumo"; label := "Redeem AppSumo Code";
                description := "Have a lifetime deal code? Redeem it here";
                action := "redeem"; tier := None |} ]
  end.

(** *** The limit check of the dashboard

    [handleCreateProject] (app/dashboard.js) starts with a guard: when the
    limits and the usage have been loaded and [checkLimit] is defined, it
    calls [checkLimit] on a snapshot made of the usage record's
    [projects_count]; when the result is not allowed it shows the upgrade
    dialog and returns.  The guard is embedded here; it yields [true] when
    the handler returns without creating the project. *)
Definition handleCreateProject_guard (orgLimits : value)
    (currentUsage : option obj) (currentOrganization : option organization)
    (checkLimit_defined : bool) : M bool :=
  match currentUsage with
  | Some usage_record =>
      if truthy orgLimits && checkLimit_defined then
        limitCheck ← checkLimit currentOrganization
                       {[ "projects" :=
                            js_or (obj_get usage_record "projects_count")
                                  (VNum 0) ]}
                       "projects" VUndefined;
        mret (negb (allowed limitCheck))
      else mret false
  | None => mret false
  end.

End Js.

(** ** Database side *)

Module Db.

(** *** SQL values *)

Definition uuid := N.
Definition timestamptz := Z.

Record date := { year : Z; month : Z; day : Z }.

Definition date_eqb (a b : date) : bool :=
  (year a =? year b) && (month a =? month b) && (day a =? day b).

Definition is_leap_year (y : Z) : bool :=
  (y mod 4 =? 0) && (negb (y mod 100 =? 0) || (y mod 400 =? 0)).

Definition days_in_month (y m : Z) : Z :=
  if m =? 2 then (if is_leap_year y then 29 else 28)
  else if (m =? 4) || (m =? 6) || (m =? 9) || (m =? 11) then 30
  else 31.

(** [DATE_TRUNC('month', d)::DATE] and
    [(DATE_TRUNC('month', d) + INTERVAL '1 month' - INTERVAL '1 day')::DATE]. *)
Definition month_start (d : date) : date :=
  {| year := year d; month := month d; day := 1 |}.

Definition month_end (d : date) : date :=
  {| year := year d; month := month d;
     day := days_in_month (year d) (month d) |}.

(** Three-valued comparison: [NULL] is [None]; [WHERE] and [IF] take a
    branch only on [TRUE]. *)
Definition sql_eq {A} (eqb : A → A → bool) (a b : option A) : option bool :=
  match a, b with
  | Some x, Some y => Some (eqb x y)
  | _, _ => None
  end.

Definition sql_and (a b : option bool) : option bool :=
  match a, b with
  | Some false, _ | _, Some false => Some false
  | Some true, Some true => Some true
  | _, _ => None
  end.

Definition is_true (b : option bool) : bool :=
  match b with
  | Some true => true
  | _ => false
  end.

(** Errors that abort the call; the enclosing statement is rolled back, so
    a raising call leaves the database as it was. *)
Inductive sql_error :=
| numeric_value_out_of_range
| foreign_key_violation
| not_null_violation.

Inductive result (A : Type) :=
| Return (a : A)
| Raise (e : sql_error).
Arguments Return {A} a.
Arguments Raise {A} e.

#[export] Instance result_ret : MRet result := λ A a, Return a.
#[export] Instance result_bind : MBind result := λ A B f m,
  match m with
  | Return a => f a
  | Raise e => Raise e
  end.

(** INTEGER is a 32-bit signed integer; [+] raises on overflow and yields
    NULL when an operand is NULL. *)
Definition int4_min : Z := -2147483648.
Definition int4_max : Z := 2147483647.

Definition in_int4 (z : Z) : bool := (int4_min <=? z) && (z <=? int4_max).

Definition int4_plus (x y : Z) : result Z :=
  if in_int4 (x + y) then Return (x + y)
  else Raise numeric_value_out_of_range.

Definition int4_add (a b : option Z) : result (option Z) :=
  match a, b with
  | Some x, Some y => z ← int4_plus x y; mret (Some z)
  | _, _ => mret None
  end.

(** JSONB objects as built by [jsonb_build_object]: a key-value map with
    scalar members. *)
Inductive json :=
| JNull
| JBool (b : bool)
| JInt (z : Z)
| JText (s : string).

Abbreviation jsonb := (gmap string json).

(** *** Tables *)

(** The columns this migration adds to [organizations], and its key. *)
Record organizations_row := {
  o_id : uuid;
  o_plan_type : option string;
  o_appsumo_tier : option Z;
  o_appsumo_codes : option (list (option string));
  o_subscription_tier : option string;
  o_stripe_customer_id : option string;
  o_plan_limits_override : option jsonb;
  o_plan_changed_at : option timestamptz
}.

Record appsumo_codes_row := {
  c_id : uuid;
  c_code : string;
  c_tier : Z;
  c_is_redeemed : option bool;
  c_redeemed_by_org_id : option uuid;
  c_redeemed_at : option timestamptz;
  c_created_at : option timestamptz;
  c_notes : option string
}.

Record usage_tracking_row := {
  u_id : uuid;
  u_organization_id : uuid;
  u_period_start : date;
  u_period_end : date;
  u_emails_sent : option Z;
  u_sms_sent : option Z;
  u_ai_analyses_used : option Z;
  u_projects_count : option Z;
  u_automations_count : option Z;
  u_customers_count : option Z;
  u_created_at : option timestamptz;
  u_updated_at : option timestamptz
}.

Record database := {
  organizations : list organizations_row;
  appsumo_codes : list appsumo_codes_row;
  usage_tracking : list usage_tracking_row
}.

(** What a call reads from its surroundings: [CURRENT_DATE], [NOW()] and
    the value [gen_random_uuid()] hands out (taken to be unused so far: a
    collision on the primary key is not modelled). *)
Record env := {
  CURRENT_DATE : date;
  NOW : timestamptz;
  gen_random_uuid : uuid
}.

(** [UPDATE t SET ... WHERE cond]: every matching row is rewritten; an
    expression that raises on one row aborts the statement. *)
Fixpoint update_where {R} (cond : R → bool) (set : R → result R)
    (rows : list R) : result (list R) :=
  match rows with
  | [] => Return []
  | r :: rest =>
      r' ← (if cond r then set r else Return r);
      rest' ← update_where cond set rest;
      mret (r' :: rest')
  end.

(** A foreign key into [organizations(id)]: NULL passes, any other value
    must be the id of a row. *)
Definition references_organization (db : database) (org_id : option uuid)
  : bool :=
  match org_id with
  | None => true
  | Some i => existsb (N.eqb i) (map o_id (organizations db))
  end.

(** *** 4. get_current_usage *)

Definition current_usage_row (e : env) (org_id : option uuid)
    (r : usage_tracking_row) : bool :=
  is_true (sql_and (sql_eq N.eqb (Some (u_organization_id r)) org_id)
                   (sql_eq date_eqb (Some (u_period_start r))
                                    (Some (month_start (CURRENT_DATE e))))).

Definition get_current_usage (e : env) (org_id : option uuid) (db : database)
  : result (usage_tracking_row * database) :=
  let current_period_start := month_start (CURRENT_DATE e) in
  let current_period_end := month_end (CURRENT_DATE e) in
  match find (current_usage_row e org_id) (usage_tracking db) with
  | Some usage_record => Return (usage_record, db)
  | None =>
      match org_id with
      | None => Raise not_null_violation
      | Some i =>
          if references_organization db org_id then
            let usage_record :=
              {| u_id := gen_random_uuid e;
                 u_organization_id := i;
                 u_period_start := current_period_start;
                 u_period_end := current_period_end;
                 u_emails_sent := Some 0;
                 u_sms_sent := Some 0;
                 u_ai_analyses_used := Some 0;
                 u_projects_count := Some 0;
                 u_automations_count := Some 0;
                 u_customers_count := Some 0;
                 u_created_at := Some (NOW e);
                 u_updated_at := Some (NOW e) |} in
            Return (usage_record,
                    {| organizations := organizations db;
                       appsumo_codes := appsumo_codes db;
                       usage_tracking := usage_tracking db ++ [usage_record] |})
          else Raise foreign_key_violation
      end
  end.

(** *** 5. increment_usage *)

Definition set_usage_tracking (db : database) (rows : list usage_tracking_row)
  : database :=
  {| organizations := organizations db;
     appsumo_codes := appsumo_codes db;
     usage_tracking := rows |}.

Definition add_emails_sent (e : env) (amount : option Z)
    (r : usage_tracking_row) : result usage_tracking_row :=
  n ← int4_add (u_emails_sent r) amount;
  mret {| u_id := u_id r; u_organization_id := u_organization_id r;
            u_period_start := u_period_start r;
            u_period_end := u_period_end r;
            u_emails_sent := n;
            u_sms_sent := u_sms_sent r;
            u_ai_analyses_used := u_ai_analyses_used r;
            u_projects_count := u_projects_count r;
            u_automations_count := u_automations_count r;
            u_customers_count := u_customers_count r;
            u_created_at := u_created_at r;
            u_updated_at := Some (NOW e) |}.

Definition add_sms_sent (e : env) (amount : option Z)
    (r : usage_tracking_row) : result usage_tracking_row :=
  n ← int4_add (u_sms_sent r) amount;
  mret {| u_id := u_id r; u_organization_id := u_organization_id r;
            u_period_start := u_period_start r;
            u_period_end := u_period_end r;
            u_emails_sent := u_emails_sent r;
            u_sms_sent := n;
            u_ai_analyses_used := u_ai_analyses_used r;
            u_projects_count := u_projects_count r;
            u_automations_count := u_automations_count r;
            u_customers_count := u_customers_count r;
            u_created_at := u_created_at r;
            u_updated_at := Some (NOW e) |}.

Definition add_ai_analyses_used (e : env) (amount : option Z)
    (r : usage_tracking_row) : result usage_tracking_row :=
  n ← int4_add (u_ai_analyses_used r) amount;
  mret {| u_id := u_id r; u_organization_id := u_organization_id r;
            u_period_start := u_period_start r;
            u_period_end := u_period_end r;
            u_emails_sent := u_emails_sent r;
            u_sms_sent := u_sms_sent r;
            u_ai_analyses_used := n;
            u_projects_count := u_projects_count r;
            u_automations_count := u_automations_count r;
            u_customers_count := u_customers_count r;
            u_created_at := u_created_at r;
            u_updated_at := Some (NOW e) |}.

Definition increment_usage (e : env) (org_id : option uuid)
    (usage_type : option string) (amount : option Z) (db : database)
  : result (bool * database) :=
  '(_, db1) ← get_current_usage e org_id db;
  if is_true (sql_eq String.eqb usage_type (Some "emails")) then
    rows ← update_where (current_usage_row e org_id)
                   (add_emails_sent e amount) (usage_tracking db1);
    Return (true, set_usage_tracking db1 rows)
  else if is_true (sql_eq String.eqb usage_type (Some "sms")) then
    rows ← update_where (current_usage_row e org_id)
                   (add_sms_sent e amount) (usage_tracking db1);
    Return (true, set_usage_tracking db1 rows)
  else if is_true (sql_eq String.eqb usage_type (Some "ai_analyses")) then
    rows ← update_where (current_usage_row e org_id)
                   (add_ai_analyses_used e amount) (usage_tracking db1);
    Return (true, set_usage_tracking db1 rows)
  else Return (true, db1).

(** *** 6. update_usage_snapshots *)

(** Modelled from the spec: the live domain collections, that is the tables
    [projects], [automations] and [customers] of schema.sql, which is not
    among the sources; a row carries the columns the counts below read. *)
Record projects_row := {
  p_id : uuid;
  p_organization_id : option uuid
}.

Record automations_row := { a_project_id : option uuid }.

Record customers_row := { cu_organization_id : option uuid }.

Record domain := {
  projects : list projects_row;
  automations : list automations_row;
  customers : list customers_row
}.

(** [SELECT COUNT( * ) INTO v] for an INTEGER variable [v]: the count is
    a bigint, and the assignment raises when it does not fit. *)
Definition count_into {A} (rows : list A) : result Z :=
  let n := Z.of_nat (length rows) in
  if in_int4 n then Return n else Raise numeric_value_out_of_range.

Definition project_of (org_id : option uuid) (p : projects_row) : bool :=
  is_true (sql_eq N.eqb (p_organization_id p) org_id).

Definition automation_of (org_id : option uuid)
    (ap : automations_row * projects_row) : bool :=
  is_true (sql_and (sql_eq N.eqb (a_project_id ap.1) (Some (p_id ap.2)))
                   (sql_eq N.eqb (p_organization_id ap.2) org_id)).

Definition customer_of (org_id : option uuid) (c : customers_row) : bool :=
  is_true (sql_eq N.eqb (cu_organization_id c) org_id).

Definition set_snapshots (e : env) (proj_count auto_count cust_count : Z)
    (r : usage_tracking_row) : usage_tracking_row :=
  {| u_id := u_id r; u_organization_id := u_organization_id r;
     u_period_start := u_period_start r;
     u_period_end := u_period_end r;
     u_emails_sent := u_emails_sent r;
     u_sms_sent := u_sms_sent r;
     u_ai_analyses_used := u_ai_analyses_used r;
     u_projects_count := Some proj_count;
     u_automations_count := Some auto_count;
     u_customers_count := Some cust_count;
     u_created_at := u_created_at r;
     u_updated_at := Some (NOW e) |}.

Definition update_usage_snapshots (e : env) (org_id : option uuid)
    (live : domain) (db : database) : result (bool * database) :=
  '(_, db1) ← get_current_usage e org_id db;
  proj_count ← count_into (List.filter (project_of org_id) (projects live));
  auto_count ←
    count_into (List.filter (automation_of org_id)
                  (list_prod (automations live) (projects live)));
  cust_count ← count_into (List.filter (customer_of org_id) (customers live));
  rows ← update_where (current_usage_row e org_id)
           (λ r, Return (set_snapshots e proj_count auto_count cust_count r))
           (usage_tracking db1);
  mret (true, set_usage_tracking db1 rows).

(** *** 7. redeem_appsumo_code *)

Definition code_matches (code : option string) (r : appsumo_codes_row) : bool :=
  is_true (sql_eq String.eqb (Some (c_code r)) code).

Definition org_matches (org_id : option uuid) (r : organizations_row) : bool :=
  is_true (sql_eq N.eqb (Some (o_id r)) org_id).

Definition mark_redeemed (e : env) (org_id : option uuid)
    (r : appsumo_codes_row) : appsumo_codes_row :=
  {| c_id := c_id r; c_code := c_code r; c_tier := c_tier r;
     c_is_redeemed := Some true;
     c_redeemed_by_org_id := org_id;
     c_redeemed_at := Some (NOW e);
     c_created_at := c_created_at r; c_notes := c_notes r |}.

(** [COALESCE(a, '{}')] and [array_append]. *)
Definition coalesce_array (a : option (list (option string)))
  : list (option string) :=
  match a with
  | Some l => l
  | None => []
  end.

Definition array_append (a : list (option string)) (x : option string)
  : list (option string) := a ++ [x].

Definition upgrade_organization (e : env) (new_tier : Z)
    (current_codes : option (list (option string)))
    (code_to_redeem : option string) (r : organizations_row)
  : organizations_row :=
  {| o_id := o_id r;
     o_plan_type := Some "appsumo_lifetime";
     o_appsumo_tier := Some new_tier;
     o_appsumo_codes :=
       Some (array_append (coalesce_array current_codes) code_to_redeem);
     o_subscription_tier := o_subscription_tier r;
     o_stripe_customer_id := o_stripe_customer_id r;
     o_plan_limits_override := o_plan_limits_override r;
     o_plan_changed_at := Some (NOW e) |}.

Definition redeem_appsumo_code (e : env) (org_id : option uuid)
    (code_to_redeem : option string) (db : database)
  : result (jsonb * database) :=
  match find (code_matches code_to_redeem) (appsumo_codes db) with
  | None =>
      Return (<["success" := JBool false]>
                (<["error" := JText "Invalid code"]> ∅), db)
  | Some code_record =>
      if is_true (c_is_redeemed code_record) then
        Return (<["success" := JBool false]>
                  (<["error" := JText "Code already redeemed"]> ∅), db)
      else
        let org := find (org_matches org_id) (organizations db) in
        let current_tier := org ≫= o_appsumo_tier in
        let current_codes := org ≫= o_appsumo_codes in
        new_tier ←
          match current_tier with
          | None => mret (c_tier code_record)
          | Some t =>
              sum ← int4_plus t (c_tier code_record);
              mret (Z.min sum 3)
          end;
        let codes' :=
          map (λ r, if N.eqb (c_id r) (c_id code_record)
                    then mark_redeemed e org_id r else r)
              (appsumo_codes db) in
        if references_organization db org_id then
          let orgs' :=
            map (λ r, if org_matches org_id r
                      then upgrade_organization e new_tier current_codes
                             code_to_redeem r
                      else r)
                (organizations db) in
          Return (<["success" := JBool true]>
                    (<["tier" := JInt new_tier]>
                       (<["message" :=
                            JText ("Code redeemed successfully! Your plan has been upgraded to Tier "
                                   +:+ pretty new_tier)]> ∅)),
                  {| organizations := orgs';
                     appsumo_codes := codes';
                     usage_tracking := usage_tracking db |})
        else Raise foreign_key_violation
  end.

(** *** 9. check_appsumo_code *)

Definition check_appsumo_code (code_to_check : option string) (db : database)
  : result (jsonb * database) :=
  match find (code_matches code_to_check) (appsumo_codes db) with
  | None =>
      Return (<["valid" := JBool false]>
                (<["error" := JText "Code not found"]> ∅), db)
  | Some code_record =>
      if is_true (c_is_redeemed code_record) then
        Return (<["valid" := JBool false]>
                  (<["error" := JText "Code already redeemed"]> ∅), db)
      else
        Return (<["valid" := JBool true]>
                  (<["tier" := JInt (c_tier code_record)]> ∅), db)
  end.

End Db.

(** * Definitions used by the statements *)

Import Js.

(** Decimal numerals consist of digits and a leading minus sign only. *)
Definition numeral_char (c : ascii) : bool :=
  bool_decide (c ∈ ["-"; "0"; "1"; "2"; "3"; "4"; "5"; "6"; "7"; "8"; "9"]%char).

Fixpoint numeral (s : string) : bool :=
  match s with
  | EmptyString => true
  | String c rest => numeral_char c && numeral rest
  end.

(** The addresses of the seven limit sets of the catalog. *)
Definition limit_sets : list loc :=
  [ free_loc; growth_loc; business_loc; enterprise_loc;
    appsumo_1_loc; appsumo_2_loc; appsumo_3_loc ].

(** The organization is a subscriber whose [subscription_tier] is the name
    of a member inherited from [Object.prototype]. *)
Definition inherited_tier (o : organization) : Prop :=
  plan_type o = Some "subscription" ∧
  text_key (subscription_tier o) ∈ object_prototype_keys.

(** The percentage in the spec's words: [round (projected / limit * 100)],
    where a limit of 0 counts as 100 percent when the usage is positive and
    as 0 percent otherwise. *)
Definition percent_of (projected limit : float) : float :=
  if PrimFloat.eqb limit 0 then
    (if PrimFloat.ltb 0 projected then 100%float else 0%float)
  else Math_round (projected / limit * 100)%float.

Definition freeOrg : organization :=
  {| plan_type := Some "free"; appsumo_tier := None;
     subscription_tier := None; plan_limits_override := None |}.

Import Db.

(** The stacking rule in the spec's words: with no prior tier the code's
    tier, otherwise the sum of the two capped at 3. *)
Definition stacked_tier (current : option Z) (code_tier : Z) : Z :=
  match current with
  | None => code_tier
  | Some t => Z.min (t + code_tier) 3
  end.

(** The organization-state invariant in the spec's words: exactly one of
    [subscription_tier] and [appsumo_tier] is non-null, and only when
    [plan_type] matches correspondingly. *)
Definition org_invariant (o : organizations_row) : Prop :=
  (is_Some (o_subscription_tier o) ∧ o_appsumo_tier o = None ∧
   o_plan_type o = Some "subscription") ∨
  (is_Some (o_appsumo_tier o) ∧ o_subscription_tier o = None ∧
   o_plan_type o = Some "appsumo_lifetime").

(** What [check_appsumo_code] is meant to reveal of a code record. *)
Definition same_validity (c1 c2 : appsumo_codes_row) : Prop :=
  c_code c1 = c_code c2 ∧ c_tier c1 = c_tier c2 ∧
  is_true (c_is_redeemed c1) = is_true (c_is_redeemed c2).

(** The current period's record as [get_current_usage] finds it. *)
Definition current_record (e : env) (org_id : option uuid) (db : database)
  : option usage_tracking_row :=
  find (current_usage_row e org_id) (usage_tracking db).

(** Sample data: the test codes the migration inserts, and four
    organizations. *)
Definition sample_env : env :=
  {| CURRENT_DATE := {| year := 2024; month := 2; day := 17 |};
     NOW := 1708128000; gen_random_uuid := 900%N |}.

Definition sample_code (i : uuid) (code : string) (tier : Z) (note : string)
  : appsumo_codes_row :=
  {| c_id := i; c_code := code; c_tier := tier; c_is_redeemed := Some false;
     c_redeemed_by_org_id := None; c_redeemed_at := None;
     c_created_at := Some 1700000000; c_notes := Some note |}.

Definition sample_codes : list appsumo_codes_row :=
  [ sample_code 101%N "AUTOMATA-TEST-T1-001" 1 "Test Tier 1 code";
    sample_code 102%N "AUTOMATA-TEST-T1-002" 1 "Test Tier 1 code";
    sample_code 103%N "AUTOMATA-TEST-T2-001" 2 "Test Tier 2 code";
    sample_code 104%N "AUTOMATA-TEST-T2-002" 2 "Test Tier 2 code";
    sample_code 105%N "AUTOMATA-TEST-T3-001" 3 "Test Tier 3 code";
    sample_code 106%N "AUTOMATA-TEST-T3-002" 3 "Test Tier 3 code" ].

Definition sample_org (i : uuid) (plan : string) (tier : option Z)
    (codes : list (option string)) (sub : option string) : organizations_row :=
  {| o_id := i; o_plan_type := Some plan; o_appsumo_tier := tier;
     o_appsumo_codes := Some codes; o_subscription_tier := sub;
     o_stripe_customer_id := None; o_plan_limits_override := None;
     o_plan_changed_at := None |}.

(** Organization 1 is on the free plan, 2 holds lifetime tier 1, 3 holds
    lifetime tier 2, 4 is a growth subscriber. *)
Definition sample_db : database :=
  {| organizations :=
       [ sample_org 1%N "free" None [] None;
         sample_org 2%N "appsumo_lifetime" (Some 1) [Some "OLD-T1"] None;
         sample_org 3%N "appsumo_lifetime" (Some 2) [Some "OLD-T2"] None;
         sample_org 4%N "subscription" None [] (Some "growth") ];
     appsumo_codes := sample_codes;
     usage_tracking := [] |}.

(** The sample database after organization 2 has redeemed the first
    tier-1 code. *)
Definition sample_db_redeemed : database :=
  {| organizations :=
       [ sample_org 1%N "free" None [] None;
         {| o_id := 2%N; o_plan_type := Some "appsumo_lifetime";
            o_appsumo_tier := Some 2;
            o_appsumo_codes :=
              Some [Some "OLD-T1"; Some "AUTOMATA-TEST-T1-001"];
            o_subscription_tier := None; o_stripe_customer_id := None;
            o_plan_limits_override := None;
            o_plan_changed_at := Some (NOW sample_env) |};
         sample_org 3%N "appsumo_lifetime" (Some 2) [Some "OLD-T2"] None;
         sample_org 4%N "subscription" None [] (Some "growth") ];
     appsumo_codes :=
       mark_redeemed sample_env (Some 2%N)
         (sample_code 101%N "AUTOMATA-TEST-T1-001" 1 "Test Tier 1 code")
       :: tail sample_codes;
     usage_tracking := [] |}.

(** The sample database in the middle of February 2024 ([sample_env]):
    organization 1 has a record for January and a record for the current
    period, the latter with 7 emails, 3 text messages and no value for the
    analyses; organization 2 has a record for the current period too. *)
Definition sample_usage (i org : uuid) (m : Z) (last : Z)
    (emails sms analyses : option Z) : usage_tracking_row :=
  {| u_id := i; u_organization_id := org;
     u_period_start := {| year := 2024; month := m; day := 1 |};
     u_period_end := {| year := 2024; month := m; day := last |};
     u_emails_sent := emails; u_sms_sent := sms;
     u_ai_analyses_used := analyses;
     u_projects_count := Some 1; u_automations_count := Some 2;
     u_customers_count := Some 40;
     u_created_at := Some 1704067200; u_updated_at := Some 1707000000 |}.

Definition sample_db_metered : database :=
  {| organizations := organizations sample_db;
     appsumo_codes := sample_codes;
     usage_tracking :=
       [ sample_usage 501%N 1%N 1 31 (Some 120) (Some 0) (Some 4);
         sample_usage 502%N 2%N 2 29 (Some 15) (Some 1) (Some 0);
         sample_usage 503%N 1%N 2 29 (Some 7) (Some 3) None ] |}.

(** The three counters of a usage period and the [usage_type] that names
    each. *)
Inductive counter := Emails | Sms | AiAnalyses.

Definition counter_name (k : counter) : string :=
  match k with
  | Emails => "emails"
  | Sms => "sms"
  | AiAnalyses => "ai_analyses"
  end.

Definition counter_value (k : counter) (r : usage_tracking_row) : option Z :=
  match k with
  | Emails => u_emails_sent r
  | Sms => u_sms_sent r
  | AiAnalyses => u_ai_analyses_used r
  end.

(** The snapshot counts and the bookkeeping columns of a usage record. *)
Definition snapshot_counts (r : usage_tracking_row)
  : option Z * option Z * option Z :=
  (u_projects_count r, u_automations_count r, u_customers_count r).

(** The key of the constraint [UNIQUE(organization_id, period_start)]. *)
Definition usage_key (r : usage_tracking_row) : uuid * date :=
  (u_organization_id r, u_period_start r).

(** A tier column within the range the schema comment gives: NULL, 1, 2
    or 3. *)
Definition tier_in_range (t : option Z) : Prop :=
  match t with
  | None => True
  | Some z => 1 ≤ z ≤ 3
  end.

(** The check constraint [tier IN (1, 2, 3)] of [appsumo_codes]. *)
Definition code_tier_checked (c : appsumo_codes_row) : Prop :=
  1 ≤ c_tier c ≤ 3.

(** The statement [UPDATE usage_tracking SET <counter> = <counter> + amount]
    that [increment_usage] runs for a counter. *)
Definition counter_setter (e : env) (k : counter) (amount : option Z)
  : usage_tracking_row → result usage_tracking_row :=
  match k with
  | Emails => add_emails_sent e amount
  | Sms => add_sms_sent e amount
  | AiAnalyses => add_ai_analyses_used e amount
  end.

(** A computation that, when it returns, leaves the heap as it found
    it. *)
Definition keeps_heap {A} (m : M A) : Prop :=
  ∀ h a h', m h = Ok (a, h') → h' = h.

(** * Properties *)

(** ** Facts about the embedding's primitives *)

Ltac js_run :=
  unfold mbind, M_bind, mret, M_ret, throw, unsupported, lift_num in *;
  simpl in *.

Lemma initial_heap_intact : catalog_intact initial_heap.
Proof. by unfold catalog_intact. Qed.

Lemma intact_lookup (h : heap) (l : loc) (o : obj) :
  catalog_intact h → initial_heap !! l = Some o → h !! l = Some o.
Proof. intros Hh Hl. by eapply prefix_lookup_Some. Qed.

Lemma intact_app (h : heap) (o : obj) :
  catalog_intact h → catalog_intact (h ++ [o]).
Proof. intros Hh. by apply prefix_app_r. Qed.

Lemma get_prop_catalog (h : heap) (l : loc) (o : obj) (k : string) :
  catalog_intact h → initial_heap !! l = Some o →
  get_prop (VRef l) k h = Ok (obj_get o k, h).
Proof.
  intros Hh Hl. unfold get_prop. by rewrite (intact_lookup h l o Hh Hl).
Qed.

Lemma pretty_N_go_numeral (x : N) (s : string) :
  numeral s = true → numeral (pretty_N_go x s) = true.
Proof.
  revert s. induction (N.lt_wf_0 x) as [x _ IH]; intros s Hs.
  destruct (decide (x = 0%N)) as [->|Hx]; [by rewrite pretty_N_go_0|].
  rewrite pretty_N_go_step by lia.
  apply IH; [apply N.div_lt; lia|].
  simpl. rewrite Hs, andb_true_r.
  unfold pretty_N_char. by repeat case_match.
Qed.

Lemma pretty_N_numeral (x : N) : numeral (pretty x) = true.
Proof.
  unfold pretty, pretty_N. case_decide; [done|].
  by apply pretty_N_go_numeral.
Qed.

Lemma pretty_Z_numeral (z : Z) : numeral (pretty z) = true.
Proof.
  destruct z as [|p|p]; unfold pretty, pretty_Z; [done|..].
  - apply pretty_N_numeral.
  - simpl. apply pretty_N_numeral.
Qed.

Lemma int_key_not_inherited (n : option Z) :
  int_key n ∉ object_prototype_keys.
Proof.
  destruct n as [z|]; simpl.
  - intros Hin. pose proof (pretty_Z_numeral z) as Hnum.
    unfold object_prototype_keys in Hin.
    repeat (apply elem_of_cons in Hin as [Heq|Hin];
            [rewrite Heq in Hnum; discriminate|]).
    by apply elem_of_nil in Hin.
  - by apply (bool_decide_eq_false_1 _).
Qed.

(** A tier other than 1, 2, 3 (or NULL) names no property of
    [PLAN_LIMITS.appsumo]. *)
Lemma appsumo_lookup_invalid (n : option Z) :
  n ≠ Some 1 → n ≠ Some 2 → n ≠ Some 3 →
  obj_get PLAN_LIMITS_appsumo (int_key n) = VUndefined.
Proof.
  intros H1 H2 H3. unfold obj_get.
  assert (PLAN_LIMITS_appsumo !! int_key n = None) as ->.
  { unfold PLAN_LIMITS_appsumo. simpl.
    assert (∀ z : Z, n ≠ Some z → int_key n ≠ pretty z) as Hne.
    { intros z Hz. destruct n as [m|]; simpl.
      - intros Heq. apply (inj pretty) in Heq. congruence.
      - intros Heq. pose proof (pretty_Z_numeral z) as Hnum.
        rewrite <- Heq in Hnum. discriminate. }
    rewrite !lookup_insert_ne, lookup_empty; [done|..].
    - apply not_eq_sym, (Hne 3 H3).
    - apply not_eq_sym, (Hne 2 H2).
    - apply not_eq_sym, (Hne 1 H1). }
  rewrite bool_decide_eq_false_2; [done|apply int_key_not_inherited].
Qed.

(** ** The catalog as read through an intact heap *)

Lemma catalog_free : obj_get PLAN_LIMITS_object "free" = VRef free_loc.
Proof. reflexivity. Qed.

Lemma catalog_subscription :
  obj_get PLAN_LIMITS_object "subscription" = VRef subscription_loc.
Proof. reflexivity. Qed.

Lemma catalog_appsumo :
  obj_get PLAN_LIMITS_object "appsumo" = VRef appsumo_loc.
Proof. reflexivity. Qed.

Lemma catalog_growth :
  obj_get PLAN_LIMITS_subscription "growth" = VRef growth_loc.
Proof. reflexivity. Qed.

Lemma catalog_appsumo_1 :
  obj_get PLAN_LIMITS_appsumo "1" = VRef appsumo_1_loc.
Proof. reflexivity. Qed.

Section resolution.
Context (h : heap) (Hh : catalog_intact h).

Lemma read_free : get_prop (VRef PLAN_LIMITS) "free" h = Ok (VRef free_loc, h).
Proof. by rewrite (get_prop_catalog h _ PLAN_LIMITS_object). Qed.

Lemma read_subscription :
  get_prop (VRef PLAN_LIMITS) "subscription" h = Ok (VRef subscription_loc, h).
Proof. by rewrite (get_prop_catalog h _ PLAN_LIMITS_object). Qed.

Lemma read_appsumo :
  get_prop (VRef PLAN_LIMITS) "appsumo" h = Ok (VRef appsumo_loc, h).
Proof. by rewrite (get_prop_catalog h _ PLAN_LIMITS_object). Qed.

Lemma read_subscription_tier (k : string) :
  get_prop (VRef subscription_loc) k h
  = Ok (obj_get PLAN_LIMITS_subscription k, h).
Proof. by rewrite (get_prop_catalog h _ PLAN_LIMITS_subscription). Qed.

Lemma read_appsumo_tier (k : string) :
  get_prop (VRef appsumo_loc) k h = Ok (obj_get PLAN_LIMITS_appsumo k, h).
Proof. by rewrite (get_prop_catalog h _ PLAN_LIMITS_appsumo). Qed.

Lemma getPlanLimits_null : getPlanLimits None h = Ok (VRef free_loc, h).
Proof. apply read_free. Qed.

(** [appsumo_lifetime]: the entry of the tier when it has one, else the
    entry of tier 1. *)
Lemma getPlanLimits_appsumo (o : organization) :
  plan_type o = Some "appsumo_lifetime" →
  getPlanLimits (Some o) h =
    Ok (js_or (obj_get PLAN_LIMITS_appsumo (int_key (appsumo_tier o)))
              (VRef appsumo_1_loc), h).
Proof.
  intros Hp. unfold getPlanLimits. cbv zeta. rewrite Hp.
  change (strict_eq_str _ "appsumo_lifetime") with true. cbv iota.
  unfold mbind, M_bind. rewrite read_appsumo, read_appsumo_tier.
  unfold js_or. destruct (truthy _); [done|].
  by rewrite read_appsumo, read_appsumo_tier, catalog_appsumo_1.
Qed.

(** [subscription]: whatever [PLAN_LIMITS.subscription] yields for the
    tier when that is truthy, else the growth entry. *)
Lemma getPlanLimits_subscription (o : organization) :
  plan_type o = Some "subscription" →
  getPlanLimits (Some o) h =
    Ok (js_or (obj_get PLAN_LIMITS_subscription
                 (text_key (subscription_tier o)))
              (VRef growth_loc), h).
Proof.
  intros Hp. unfold getPlanLimits. cbv zeta. rewrite Hp.
  change (strict_eq_str _ "appsumo_lifetime") with false.
  change (strict_eq_str _ "subscription") with true. cbv iota.
  unfold mbind, M_bind. rewrite read_subscription, read_subscription_tier.
  unfold js_or. destruct (truthy _); [done|].
  by rewrite read_subscription, read_subscription_tier, catalog_growth.
Qed.

Lemma getPlanLimits_other (o : organization) :
  plan_type o ≠ Some "appsumo_lifetime" →
  plan_type o ≠ Some "subscription" →
  getPlanLimits (Some o) h = Ok (VRef free_loc, h).
Proof.
  intros Ha Hs. unfold getPlanLimits. cbv zeta.
  assert (strict_eq_str (text_value (plan_type o)) "appsumo_lifetime" = false)
    as ->.
  { destruct (plan_type o) as [s|]; [|done]. simpl.
    apply String.eqb_neq. congruence. }
  assert (strict_eq_str (text_value (plan_type o)) "subscription" = false)
    as ->.
  { destruct (plan_type o) as [s|]; [|done]. simpl.
    apply String.eqb_neq. congruence. }
  apply read_free.
Qed.

End resolution.

(** ** Limit resolution *)

Ltac pick_limit_set H :=
  apply list_elem_of_In in H; simpl in H;
  destruct H as [<-|[<-|[<-|[]]]];
  eexists; (split; [reflexivity|]);
  apply list_elem_of_In; simpl; tauto.

Lemma subscription_lookup (s : string) :
  s ∉ object_prototype_keys →
  js_or (obj_get PLAN_LIMITS_subscription s) (VRef growth_loc)
    ∈ [VRef growth_loc; VRef business_loc; VRef enterprise_loc].
Proof.
  intros Hs.
  destruct (decide (s = "growth")) as [->|Hg]; [set_solver|].
  destruct (decide (s = "business")) as [->|Hb]; [set_solver|].
  destruct (decide (s = "enterprise")) as [->|He]; [set_solver|].
  unfold obj_get.
  assert (PLAN_LIMITS_subscription !! s = None) as ->.
  { unfold PLAN_LIMITS_subscription. simpl.
    by rewrite !lookup_insert_ne, lookup_empty. }
  rewrite bool_decide_eq_false_2 by done. set_solver.
Qed.

Lemma appsumo_lookup (n : option Z) :
  js_or (obj_get PLAN_LIMITS_appsumo (int_key n)) (VRef appsumo_1_loc)
    ∈ [VRef appsumo_1_loc; VRef appsumo_2_loc; VRef appsumo_3_loc].
Proof.
  destruct (decide (n = Some 1)) as [->|H1]; [set_solver|].
  destruct (decide (n = Some 2)) as [->|H2]; [set_solver|].
  destruct (decide (n = Some 3)) as [->|H3]; [set_solver|].
  rewrite appsumo_lookup_invalid by done. set_solver.
Qed.

(** X23: what limit resolution does on every input.  For every
    organization argument the call returns (it never throws) and leaves
    the heap as it was; a null
    organization gets the free limits, an [appsumo_lifetime] plan whose tier
    is missing or not 1, 2 or 3 gets the tier-1 limits, a [subscription]
    plan with a missing tier gets the growth limits, and any other plan
    type gets the free limits.  The value returned is one of the seven
    limit sets of the catalog unless the plan is [subscription] and the tier
    names a member inherited from [Object.prototype]. *)
Theorem getPlanLimits_safe_defaults (h : heap) (org : option organization) :
  catalog_intact h →
  ∃ v, getPlanLimits org h = Ok (v, h) ∧
    ((∀ o, org = Some o → ¬ inherited_tier o) →
       ∃ l, v = VRef l ∧ l ∈ limit_sets) ∧
    (org = None → v = VRef free_loc) ∧
    (∀ o, org = Some o → plan_type o = Some "appsumo_lifetime" →
       appsumo_tier o ≠ Some 1 → appsumo_tier o ≠ Some 2 →
       appsumo_tier o ≠ Some 3 → v = VRef appsumo_1_loc) ∧
    (∀ o, org = Some o → plan_type o = Some "subscription" →
       subscription_tier o = None → v = VRef growth_loc) ∧
    (∀ o, org = Some o → plan_type o ≠ Some "appsumo_lifetime" →
       plan_type o ≠ Some "subscription" → v = VRef free_loc).
Proof.
  intros Hh. destruct org as [o|].
  2:{ eexists. split; [by apply getPlanLimits_null|].
      repeat split; try done. intros _. exists free_loc.
      split; [done|]. unfold limit_sets. set_solver. }
  destruct (decide (plan_type o = Some "appsumo_lifetime")) as [Ha|Ha].
  { eexists. split; [by apply getPlanLimits_appsumo|].
    repeat split.
    - intros _. pose proof (appsumo_lookup (appsumo_tier o)) as Hin.
      by pick_limit_set Hin.
    - done.
    - intros ? [= <-] _ H1 H2 H3. by rewrite appsumo_lookup_invalid.
    - intros ? [= <-] Hs. congruence.
    - intros ? [= <-] Hn. congruence. }
  destruct (decide (plan_type o = Some "subscription")) as [Hs|Hs].
  { eexists. split; [by apply getPlanLimits_subscription|].
    repeat split.
    - intros Hok.
      pose proof (subscription_lookup (text_key (subscription_tier o))) as Hin.
      unfold inherited_tier in Hok.
      assert (text_key (subscription_tier o) ∉ object_prototype_keys) as Hkey
        by (intros ?; by eapply Hok).
      specialize (Hin Hkey). by pick_limit_set Hin.
    - done.
    - intros ? [= <-] Ha'. congruence.
    - intros ? [= <-] _ ->. done.
    - intros ? [= <-] _ Hn. congruence. }
  eexists. split; [by apply getPlanLimits_other|].
  repeat split; try done.
  - intros _. exists free_loc. split; [done|]. unfold limit_sets. set_solver.
  - intros ? [= <-] Ha'. congruence.
  - intros ? [= <-] Hs'. congruence.
Qed.

Lemma getPlanLimits_safe_defaults_witness :
  catalog_intact initial_heap ∧
  ∃ v, getPlanLimits
         (Some {| plan_type := Some "appsumo_lifetime";
                  appsumo_tier := Some 7;
                  subscription_tier := None;
                  plan_limits_override := None |}) initial_heap
       = Ok (v, initial_heap) ∧ v = VRef appsumo_1_loc.
Proof.
  split; [exact initial_heap_intact|].
  destruct (getPlanLimits_safe_defaults initial_heap
              (Some {| plan_type := Some "appsumo_lifetime";
                       appsumo_tier := Some 7;
                       subscription_tier := None;
                       plan_limits_override := None |})
              initial_heap_intact) as (v & Hrun & _ & _ & Hinvalid & _).
  exists v. split; [exact Hrun|].
  by apply (Hinvalid _ eq_refl).
Defined.

(** C7: limit resolution is meant to produce a limit set on every input,
    and an unknown tier is meant to fall back: a subscriber with the
    unknown tier [platinum] gets the growth limits, and a lifetime plan
    with the invalid tier 7 gets the tier-1 limits.  A subscriber whose
    tier is the string [constructor] is not caught by the same fallback:
    the lookup finds the member inherited from [Object.prototype], which
    is truthy, and [getPlanLimits] returns it.  It is no limit set, so
    the call does not produce a limit set on every input. *)
Lemma getPlanLimits_inherited_member :
  getPlanLimits
    (Some {| plan_type := Some "subscription"; appsumo_tier := None;
             subscription_tier := Some "constructor";
             plan_limits_override := None |}) initial_heap
    = Ok (VInherited "constructor", initial_heap) ∧
  getPlanLimits
    (Some {| plan_type := Some "subscription"; appsumo_tier := None;
             subscription_tier := Some "platinum";
             plan_limits_override := None |}) initial_heap
    = Ok (VRef growth_loc, initial_heap) ∧
  getPlanLimits
    (Some {| plan_type := Some "appsumo_lifetime"; appsumo_tier := Some 7;
             subscription_tier := None;
             plan_limits_override := None |}) initial_heap
    = Ok (VRef appsumo_1_loc, initial_heap) ∧
  ¬ (∀ org, ∃ l, getPlanLimits org initial_heap = Ok (VRef l, initial_heap)
                 ∧ l ∈ limit_sets).
Proof.
  split; [reflexivity|]. split; [reflexivity|]. split; [reflexivity|].
  intros Hall.
  destruct (Hall (Some {| plan_type := Some "subscription";
                          appsumo_tier := None;
                          subscription_tier := Some "constructor";
                          plan_limits_override := None |}))
    as (l & Hrun & _).
  discriminate Hrun.
Qed.

(** ** Overrides and the catalog singleton *)

Lemma getOrgLimits_plain (h : heap) (o : organization) :
  plan_limits_override o = None →
  getOrgLimits (Some o) h = getPlanLimits (Some o) h.
Proof. intros Hov. unfold getOrgLimits. by rewrite Hov. Qed.

Lemma getOrgLimits_merged (h : heap) (o : organization) (override base : obj)
    (l : loc) :
  plan_limits_override o = Some override →
  getPlanLimits (Some o) h = Ok (VRef l, h) →
  h !! l = Some base →
  getOrgLimits (Some o) h
  = Ok (VRef (length h), h ++ [override ∪ base]).
Proof.
  intros Hov Hbase Hl. unfold getOrgLimits. rewrite Hov.
  unfold mbind, M_bind. rewrite Hbase. unfold spread. by rewrite Hl.
Qed.

(** C8: for an [appsumo_lifetime] organization whose tier is 1, 2 or 3,
    with [base] the catalog's [appsumo[tier]] entry (found at address [l]):
    without an override the call returns that very entry and the heap is
    untouched; with an override it returns a fresh object in which every
    key of the override has the override's value and every other key has
    the base value.  Either way every object that existed before the call,
    the catalog included, is as it was. *)
Theorem getOrgLimits_appsumo_merge (h : heap) (o : organization) (t : Z)
    (l : loc) (base : obj) :
  catalog_intact h →
  plan_type o = Some "appsumo_lifetime" →
  appsumo_tier o = Some t →
  t = 1 ∨ t = 2 ∨ t = 3 →
  PLAN_LIMITS_appsumo !! pretty t = Some (VRef l) →
  initial_heap !! l = Some base →
  ∃ v h', getOrgLimits (Some o) h = Ok (v, h') ∧
    catalog_intact h' ∧
    (∀ a obj_a, h !! a = Some obj_a → h' !! a = Some obj_a) ∧
    match plan_limits_override o with
    | None => v = VRef l ∧ h' = h
    | Some override =>
        ∃ a merged, v = VRef a ∧ h !! a = None ∧ h' !! a = Some merged ∧
          ∀ k, merged !! k = match override !! k with
                             | Some x => Some x
                             | None => base !! k
                             end
    end.
Proof.
  intros Hh Hp Ht Hvalid Hl Hbase.
  assert (getPlanLimits (Some o) h = Ok (VRef l, h)) as Hplan.
  { rewrite getPlanLimits_appsumo by done. rewrite Ht. simpl.
    unfold obj_get. by rewrite Hl. }
  destruct (plan_limits_override o) as [override|] eqn:Hov.
  - exists (VRef (length h)), (h ++ [override ∪ base]).
    split; [by eapply getOrgLimits_merged, intact_lookup|].
    split; [by apply intact_app|].
    split; [intros a obj_a Ha; by apply lookup_app_l_Some|].
    exists (length h), (override ∪ base).
    split; [done|]. split; [by apply lookup_ge_None_2|].
    split; [by rewrite lookup_app_r, Nat.sub_diag|].
    intros k. rewrite lookup_union.
    by destruct (override !! k), (base !! k).
  - exists (VRef l), h. rewrite getOrgLimits_plain by done. eauto.
Qed.

Lemma getOrgLimits_appsumo_merge_witness :
  ∃ v h',
    getOrgLimits
      (Some {| plan_type := Some "appsumo_lifetime"; appsumo_tier := Some 2;
               subscription_tier := None;
               plan_limits_override :=
                 Some {[ "projects" := VNum 40%float ]} |}) initial_heap
    = Ok (v, h') ∧
    ∃ a merged, v = VRef a ∧ h' !! a = Some merged ∧
      merged !! "projects" = Some (VNum 40%float) ∧
      merged !! "automations" = Some (VNum 30%float) ∧
      h' !! appsumo_2_loc = Some PLAN_LIMITS_appsumo_2.
Proof.
  destruct (getOrgLimits_appsumo_merge initial_heap
              {| plan_type := Some "appsumo_lifetime"; appsumo_tier := Some 2;
                 subscription_tier := None;
                 plan_limits_override :=
                   Some {[ "projects" := VNum 40%float ]} |}
              2 appsumo_2_loc PLAN_LIMITS_appsumo_2
              initial_heap_intact eq_refl eq_refl
              (or_intror (or_introl eq_refl)) eq_refl eq_refl)
    as (v & h' & Hrun & _ & Hkeep & a & merged & Hv & _ & Ha & Hmerged).
  exists v, h'. split; [exact Hrun|].
  exists a, merged. split; [exact Hv|]. split; [exact Ha|].
  split; [by rewrite Hmerged|]. split; [by rewrite Hmerged|].
  by apply Hkeep.
Defined.

(** ** Quota checks *)

Local Open Scope float_scope.

Lemma getUsagePercent_numeric (h : heap) (p L : float) :
  PrimFloat.eqb L (-1) = false →
  getUsagePercent (VNum p) (VNum L) h = Ok (percent_of p L, h).
Proof.
  intros HL. unfold getUsagePercent, percent_of. simpl. rewrite HL.
  destruct (PrimFloat.eqb L 0); js_run; by destruct (PrimFloat.ltb 0 p).
Qed.

Lemma getLimitMessage_numeric (h : heap) (key : string) (L : float)
    (plan : value) :
  ∃ msg, getLimitMessage key (VNum L) plan h = Ok (msg, h).
Proof.
  unfold getLimitMessage, formatLimit. cbv zeta.
  destruct (strict_eq_str plan "appsumo_lifetime"),
    (strict_eq_str plan "subscription"),
    (strict_eq_num (VNum L) (-1)), (strict_eq_num (VNum L) 0);
    js_run; eauto.
Qed.

(** The result of [checkLimit] when the limit is a number other than -1
    and the current usage is a number. *)
Lemma checkLimit_numeric (h h' : heap) (o : organization) (usage : obj)
    (key : string) (i : float) (lim : value) (L c : float) :
  getOrgLimits (Some o) h = Ok (lim, h') →
  get_prop lim key h' = Ok (VNum L, h') →
  PrimFloat.eqb L (-1) = false →
  js_or (obj_get usage key) (VNum 0) = VNum c →
  ∃ msg,
    checkLimit (Some o) usage key (VNum i) h =
    Ok (if PrimFloat.ltb L (c + i) then
          {| allowed := false; warning := None; message_of := Some msg;
             upgradeRequired := Some true; current := Some (VNum c);
             limit_of := Some (VNum L) |}
        else if PrimFloat.leb 80 (percent_of (c + i) L)
                && PrimFloat.ltb (percent_of (c + i) L) 100 then
          {| allowed := true; warning := Some true;
             message_of :=
               Some [ Lit "You're at "; Str (VNum (percent_of (c + i) L));
                      Lit "% of your "; Str (formatLimitName key);
                      Lit " limit." ];
             upgradeRequired := None; current := Some (VNum (c + i));
             limit_of := Some (VNum L) |}
        else
          {| allowed := true; warning := None; message_of := None;
             upgradeRequired := None; current := Some (VNum (c + i));
             limit_of := Some (VNum L) |}, h').
Proof.
  intros Hlim Hget HL Hc.
  destruct (getLimitMessage_numeric h' key L (text_value (plan_type o)))
    as [msg Hmsg].
  exists msg. unfold checkLimit. cbv zeta.
  unfold mbind at 1, M_bind at 1. rewrite Hlim.
  unfold mbind at 1, M_bind at 1. rewrite Hget.
  change (strict_eq_num (VNum L) (-1)) with (PrimFloat.eqb L (-1)).
  rewrite HL, Hc.
  unfold js_add, js_gt. js_run.
  destruct (PrimFloat.ltb L (c + i)).
  - by rewrite Hmsg.
  - rewrite getUsagePercent_numeric by done.
    by destruct (_ && _).
Qed.

Lemma checkLimit_default_increment (org : option organization) (usage : obj)
    (key : string) :
  checkLimit org usage key VUndefined = checkLimit org usage key (VNum 1).
Proof. reflexivity. Qed.

Lemma not_false_true (b : bool) : b ≠ false → b = true.
Proof. by destruct b. Qed.

(** C2: with a numeric limit [L] other than -1, current usage [c] and
    increment [i], [checkLimit] returns; the result is a denial exactly
    when the projected usage [c + i] exceeds [L], and it carries the
    warning flag exactly when it is not a denial and the percentage of the
    projected usage lies in [80, 100). *)
Theorem checkLimit_decision (h h' : heap) (o : organization) (usage : obj)
    (key : string) (i : float) (lim : value) (L c : float) :
  getOrgLimits (Some o) h = Ok (lim, h') →
  get_prop lim key h' = Ok (VNum L, h') →
  PrimFloat.eqb L (-1) = false →
  js_or (obj_get usage key) (VNum 0) = VNum c →
  ∃ r, checkLimit (Some o) usage key (VNum i) h = Ok (r, h') ∧
    (allowed r = false ↔ PrimFloat.ltb L (c + i) = true) ∧
    (warning r = Some true ↔
       allowed r = true ∧
       PrimFloat.leb 80 (percent_of (c + i) L) = true ∧
       PrimFloat.ltb (percent_of (c + i) L) 100 = true).
Proof.
  intros Hlim Hget HL Hc.
  destruct (checkLimit_numeric h h' o usage key i lim L c Hlim Hget HL Hc)
    as [msg ->].
  eexists. split; [reflexivity|].
  destruct (PrimFloat.ltb L (c + i)); simpl.
  { split; [done|]. split; [done|]. by intros [? _]. }
  destruct (PrimFloat.leb 80 _), (PrimFloat.ltb _ 100); simpl;
    (split; [done|]); split; try done; intros (_ & ? & ?); done.
Qed.

(** The boundary cases of C2 on the free plan, whose customer limit is
    100: 79 used plus 1 is allowed with a warning, 100 used plus 1 is
    denied. *)
Lemma checkLimit_decision_witness :
  (∃ r h', checkLimit (Some freeOrg) {[ "customers" := VNum 79 ]}
             "customers" (VNum 1) initial_heap = Ok (r, h')
           ∧ allowed r = true ∧ warning r = Some true) ∧
  (∃ r h', checkLimit (Some freeOrg) {[ "customers" := VNum 100 ]}
             "customers" (VNum 1) initial_heap = Ok (r, h')
           ∧ allowed r = false).
Proof.
  split.
  - destruct (checkLimit_decision initial_heap initial_heap freeOrg
                {[ "customers" := VNum 79 ]} "customers" 1
                (VRef free_loc) 100 79)
      as (r & Hrun & Hdeny & Hwarn); [reflexivity..|].
    exists r, initial_heap. split; [exact Hrun|].
    assert (allowed r = true) as Hallowed.
    { apply not_false_true. intros Hd. apply Hdeny in Hd. discriminate Hd. }
    split; [exact Hallowed|].
    apply Hwarn. split; [exact Hallowed|]. split; reflexivity.
  - destruct (checkLimit_decision initial_heap initial_heap freeOrg
                {[ "customers" := VNum 100 ]} "customers" 1
                (VRef free_loc) 100 100)
      as (r & Hrun & Hdeny & _); [reflexivity..|].
    exists r, initial_heap. split; [exact Hrun|].
    by apply Hdeny.
Defined.

(** C4, as the code has it: the result carries the resolved limit in every
    case; an allowed result (with or without warning) carries the projected
    usage [c + i] as [current], a denial carries the usage before the
    increment, [c]. *)
Theorem checkLimit_bookkeeping (h h' : heap) (o : organization) (usage : obj)
    (key : string) (i : float) (lim : value) (L c : float) :
  getOrgLimits (Some o) h = Ok (lim, h') →
  get_prop lim key h' = Ok (VNum L, h') →
  PrimFloat.eqb L (-1) = false →
  js_or (obj_get usage key) (VNum 0) = VNum c →
  ∃ r, checkLimit (Some o) usage key (VNum i) h = Ok (r, h') ∧
    limit_of r = Some (VNum L) ∧
    (allowed r = true → current r = Some (VNum (c + i))) ∧
    (allowed r = false → current r = Some (VNum c)).
Proof.
  intros Hlim Hget HL Hc.
  destruct (checkLimit_numeric h h' o usage key i lim L c Hlim Hget HL Hc)
    as [msg ->].
  eexists. split; [reflexivity|].
  destruct (PrimFloat.ltb L (c + i)); [done|].
  by destruct (_ && _).
Qed.

Lemma checkLimit_bookkeeping_witness :
  ∃ r h', checkLimit (Some freeOrg) {[ "customers" := VNum 79 ]}
            "customers" (VNum 1) initial_heap = Ok (r, h')
          ∧ limit_of r = Some (VNum 100)
          ∧ (allowed r = true → current r = Some (VNum (79 + 1))).
Proof.
  destruct (checkLimit_bookkeeping initial_heap initial_heap freeOrg
              {[ "customers" := VNum 79 ]} "customers" 1
              (VRef free_loc) 100 79)
    as (r & Hrun & Hlimit & Hallowed & _); [reflexivity..|].
  exists r, initial_heap. split; [exact Hrun|]. split; [exact Hlimit|].
  exact Hallowed.
Defined.

Lemma current_100_ne_101 : Some (VNum 100) ≠ Some (VNum (100 + 1)).
Proof.
  intros Heq.
  apply (f_equal (λ o, match o with
                       | Some v => strict_eq_num v 100
                       | None => false
                       end)) in Heq.
  discriminate Heq.
Qed.

(** C4 as stated fails on a denial: with 100 customers used on the free
    plan and an increment of 1 the result carries [current = 100], not the
    projected 101. *)
Lemma checkLimit_denied_current :
  ∃ r h', checkLimit (Some freeOrg) {[ "customers" := VNum 100 ]}
            "customers" (VNum 1) initial_heap = Ok (r, h')
          ∧ allowed r = false
          ∧ limit_of r = Some (VNum 100)
          ∧ current r = Some (VNum 100)
          ∧ current r ≠ Some (VNum (100 + 1)).
Proof.
  destruct (checkLimit_numeric initial_heap initial_heap freeOrg
              {[ "customers" := VNum 100 ]} "customers" 1
              (VRef free_loc) 100 100) as [msg Hrun]; [reflexivity..|].
  assert (PrimFloat.ltb 100 (100 + 1) = true) as Hover by reflexivity.
  rewrite Hover in Hrun.
  eexists _, _. split; [exact Hrun|]. simpl.
  repeat split; try reflexivity.
  exact current_100_ne_101.
Qed.

(** A key the snapshot does not have reads as [undefined] unless it names
    an inherited member; limit keys do not. *)
Lemma missing_entry_falsy (usage : obj) (key : string) :
  usage !! key = None → key ∉ object_prototype_keys →
  truthy (obj_get usage key) = false.
Proof.
  intros Hnone Hkey. unfold obj_get. rewrite Hnone.
  by rewrite bool_decide_eq_false_2.
Qed.

(** C10: when the snapshot's entry for the key is missing or falsy
    ([undefined], [null], 0, NaN), the call behaves exactly as with an
    explicit entry of 0; and with a numeric limit other than -1 the
    decision is taken on the projected usage [0 + i], which an allowed
    result carries as [current]. *)
Theorem checkLimit_missing_usage (h : heap) (org : option organization)
    (usage : obj) (key : string) (increment : value) :
  truthy (obj_get usage key) = false →
  checkLimit org usage key increment h
  = checkLimit org (<[key := VNum 0]> usage) key increment h ∧
  ∀ o lim h' L i,
    org = Some o → increment = VNum i →
    getOrgLimits (Some o) h = Ok (lim, h') →
    get_prop lim key h' = Ok (VNum L, h') →
    PrimFloat.eqb L (-1) = false →
    ∃ r, checkLimit org usage key increment h = Ok (r, h') ∧
      (allowed r = false ↔ PrimFloat.ltb L (0 + i) = true) ∧
      (allowed r = true → current r = Some (VNum (0 + i))).
Proof.
  intros Hfalsy.
  assert (js_or (obj_get usage key) (VNum 0) = VNum 0) as Hzero
    by (unfold js_or; by rewrite Hfalsy).
  assert (js_or (obj_get (<[key := VNum 0]> usage) key) (VNum 0) = VNum 0)
    as Hzero'
    by (unfold obj_get; rewrite lookup_insert_eq; reflexivity).
  split.
  - unfold checkLimit. cbv zeta. by rewrite Hzero, Hzero'.
  - intros o lim h' L i -> -> Hlim Hget HL.
    destruct (checkLimit_numeric h h' o usage key i lim L 0 Hlim Hget HL Hzero)
      as [msg ->].
    eexists. split; [reflexivity|].
    destruct (PrimFloat.ltb L (0 + i)); [done|].
    by destruct (_ && _).
Qed.

(** [checkLimit(freeOrg, {}, 'projects', 1)] is allowed. *)
Lemma checkLimit_missing_usage_witness :
  truthy (obj_get ∅ "projects") = false ∧
  ∃ r h', checkLimit (Some freeOrg) ∅ "projects" (VNum 1) initial_heap
          = Ok (r, h')
        ∧ allowed r = true ∧ current r = Some (VNum (0 + 1)).
Proof.
  split; [reflexivity|].
  destruct (checkLimit_missing_usage initial_heap (Some freeOrg) ∅
              "projects" (VNum 1)) as [_ Hdecide]; [reflexivity|].
  destruct (Hdecide freeOrg (VRef free_loc) initial_heap 1 1)
    as (r & Hrun & Hdeny & Hcurrent); [reflexivity..|].
  exists r, initial_heap. split; [exact Hrun|].
  assert (allowed r = true) as Hallowed.
  { apply not_false_true. intros Hd. apply Hdeny in Hd. discriminate Hd. }
  split; [exact Hallowed|]. by apply Hcurrent.
Defined.

(** ** Code redemption *)

Local Open Scope Z_scope.

Lemma redeem_success (e : env) (db : database) (org_id : option uuid)
    (code : option string) (c : appsumo_codes_row) :
  find (code_matches code) (appsumo_codes db) = Some c →
  is_true (c_is_redeemed c) = false →
  references_organization db org_id = true →
  let org := find (org_matches org_id) (organizations db) in
  let current := org ≫= o_appsumo_tier in
  (∀ t, current = Some t → in_int4 (t + c_tier c) = true) →
  let new_tier := stacked_tier current (c_tier c) in
  redeem_appsumo_code e org_id code db =
  Return (<["success" := JBool true]>
            (<["tier" := JInt new_tier]>
               (<["message" :=
                    JText ("Code redeemed successfully! Your plan has been upgraded to Tier "
                           +:+ pretty new_tier)]> ∅)),
          {| organizations :=
               map (λ r, if org_matches org_id r
                         then upgrade_organization e new_tier
                                (org ≫= o_appsumo_codes) code r
                         else r) (organizations db);
             appsumo_codes :=
               map (λ r, if N.eqb (c_id r) (c_id c)
                         then mark_redeemed e org_id r else r)
                   (appsumo_codes db);
             usage_tracking := usage_tracking db |}).
Proof.
  intros Hfind Hfresh Hfk org current Hrange new_tier.
  unfold redeem_appsumo_code. rewrite Hfind, Hfresh.
  fold org. fold current. subst new_tier.
  destruct current as [t|] eqn:Hcur; simpl.
  - unfold int4_plus. rewrite (Hrange t eq_refl). simpl. by rewrite Hfk.
  - by rewrite Hfk.
Qed.

Lemma success_json (t : Z) (msg : json) :
  let r : jsonb :=
    <["success" := JBool true]>
      (<["tier" := JInt t]> (<["message" := msg]> ∅)) in
  r !! "success" = Some (JBool true) ∧ r !! "tier" = Some (JInt t).
Proof.
  split; [apply lookup_insert_eq|].
  rewrite lookup_insert_ne by done. apply lookup_insert_eq.
Qed.

(** C1: redeeming an existing, unredeemed code for an organization the
    store knows (the tier sum staying within INTEGER) succeeds; the tier
    returned and stored is the code's tier when the organization had none,
    and [min (current + code tier, 3)] otherwise. *)
Theorem redeem_stacking (e : env) (db : database) (org_id : option uuid)
    (code : option string) (c : appsumo_codes_row) :
  find (code_matches code) (appsumo_codes db) = Some c →
  is_true (c_is_redeemed c) = false →
  references_organization db org_id = true →
  let current :=
    find (org_matches org_id) (organizations db) ≫= o_appsumo_tier in
  (∀ t, current = Some t → in_int4 (t + c_tier c) = true) →
  ∃ r db', redeem_appsumo_code e org_id code db = Return (r, db') ∧
    r !! "success" = Some (JBool true) ∧
    r !! "tier" = Some (JInt (stacked_tier current (c_tier c))) ∧
    (current = None → r !! "tier" = Some (JInt (c_tier c))) ∧
    (∀ t, current = Some t →
       r !! "tier" = Some (JInt (Z.min (t + c_tier c) 3))) ∧
    ∀ o', o' ∈ organizations db' → org_matches org_id o' = true →
      o_appsumo_tier o' = Some (stacked_tier current (c_tier c)).
Proof.
  intros Hfind Hfresh Hfk current Hrange.
  eexists _, _. split; [by apply redeem_success|].
  destruct (success_json (stacked_tier current (c_tier c))
              (JText ("Code redeemed successfully! Your plan has been upgraded to Tier "
                      +:+ pretty (stacked_tier current (c_tier c)))))
    as [Hsuccess Htier].
  split; [exact Hsuccess|]. split; [exact Htier|].
  split; [intros Hcur; etrans; [exact Htier|]; by rewrite Hcur|].
  split; [intros t Hcur; etrans; [exact Htier|]; by rewrite Hcur|].
  simpl. intros o' Hin Hmatch.
  apply list_elem_of_fmap in Hin as (o & -> & _).
  destruct (org_matches org_id o) eqn:Ho; [done|].
  congruence.
Qed.

(** The three stacking cases of the spec on the sample data: tier 1 plus a
    tier-2 code gives 3, tier 2 plus a tier-2 code gives 3, no tier plus a
    tier-1 code gives 1. *)
Lemma redeem_stacking_witness :
  (∃ r db', redeem_appsumo_code sample_env (Some 2%N)
              (Some "AUTOMATA-TEST-T2-001") sample_db = Return (r, db')
            ∧ r !! "tier" = Some (JInt 3)) ∧
  (∃ r db', redeem_appsumo_code sample_env (Some 3%N)
              (Some "AUTOMATA-TEST-T2-001") sample_db = Return (r, db')
            ∧ r !! "tier" = Some (JInt 3)) ∧
  (∃ r db', redeem_appsumo_code sample_env (Some 1%N)
              (Some "AUTOMATA-TEST-T1-001") sample_db = Return (r, db')
            ∧ r !! "tier" = Some (JInt 1)).
Proof.
  repeat split.
  - destruct (redeem_stacking sample_env sample_db (Some 2%N)
                (Some "AUTOMATA-TEST-T2-001")
                (sample_code 103%N "AUTOMATA-TEST-T2-001" 2 "Test Tier 2 code"))
      as (r & db' & Hrun & _ & Htier & _);
      [reflexivity | reflexivity | reflexivity
      | by intros t [= <-] | ].
    exists r, db'. split; [exact Hrun | exact Htier].
  - destruct (redeem_stacking sample_env sample_db (Some 3%N)
                (Some "AUTOMATA-TEST-T2-001")
                (sample_code 103%N "AUTOMATA-TEST-T2-001" 2 "Test Tier 2 code"))
      as (r & db' & Hrun & _ & Htier & _);
      [reflexivity | reflexivity | reflexivity
      | by intros t [= <-] | ].
    exists r, db'. split; [exact Hrun | exact Htier].
  - destruct (redeem_stacking sample_env sample_db (Some 1%N)
                (Some "AUTOMATA-TEST-T1-001")
                (sample_code 101%N "AUTOMATA-TEST-T1-001" 1 "Test Tier 1 code"))
      as (r & db' & Hrun & _ & Htier & _);
      [reflexivity | reflexivity | reflexivity
      | by intros t [=] | ].
    exists r, db'. split; [exact Hrun | exact Htier].
Defined.

(** C5: an unknown code is rejected with the error `Invalid code', a
    code already redeemed with `Code already redeemed'; in both cases the
    database returned is the one passed in. *)
Theorem redeem_failures_leave_store (e : env) (db : database)
    (org_id : option uuid) (code : option string) :
  (find (code_matches code) (appsumo_codes db) = None →
   redeem_appsumo_code e org_id code db =
   Return ({[ "success" := JBool false; "error" := JText "Invalid code" ]},
           db)) ∧
  (∀ c, find (code_matches code) (appsumo_codes db) = Some c →
        c_is_redeemed c = Some true →
        redeem_appsumo_code e org_id code db =
        Return ({[ "success" := JBool false;
                   "error" := JText "Code already redeemed" ]}, db)).
Proof.
  split.
  - intros Hnone. unfold redeem_appsumo_code. by rewrite Hnone.
  - intros c Hfind Hred. unfold redeem_appsumo_code.
    by rewrite Hfind, Hred.
Qed.

Lemma sample_redeemed :
  ∃ r, redeem_appsumo_code sample_env (Some 2%N)
         (Some "AUTOMATA-TEST-T1-001") sample_db
       = Return (r, sample_db_redeemed).
Proof. by eexists. Qed.

Lemma redeem_failures_leave_store_witness :
  redeem_appsumo_code sample_env (Some 1%N) (Some "AUTOMATA-TEST-T9-001")
    sample_db
  = Return ({[ "success" := JBool false; "error" := JText "Invalid code" ]},
            sample_db) ∧
  redeem_appsumo_code sample_env (Some 1%N) (Some "AUTOMATA-TEST-T1-001")
    sample_db_redeemed
  = Return ({[ "success" := JBool false;
               "error" := JText "Code already redeemed" ]},
            sample_db_redeemed).
Proof.
  split.
  - apply (redeem_failures_leave_store sample_env sample_db (Some 1%N)
             (Some "AUTOMATA-TEST-T9-001")).
    reflexivity.
  - apply (proj2 (redeem_failures_leave_store sample_env sample_db_redeemed
                    (Some 1%N) (Some "AUTOMATA-TEST-T1-001"))
                 (mark_redeemed sample_env (Some 2%N)
                    (sample_code 101%N "AUTOMATA-TEST-T1-001" 1
                       "Test Tier 1 code")));
      reflexivity.
Defined.

(** ** The organization-state invariant *)

Lemma upgraded_invariant (e : env) (t : Z)
    (codes : option (list (option string))) (code : option string)
    (o : organizations_row) :
  org_invariant (upgrade_organization e t codes code o)
  ↔ o_subscription_tier o = None.
Proof.
  unfold org_invariant. simpl. split.
  - intros [(_ & Hnone & _)|(_ & Hsub & _)]; [discriminate|done].
  - intros Hsub. right. eauto.
Qed.

(** C3, as the code has it: [get_current_usage], [increment_usage] and
    [check_appsumo_code] leave the organizations as they are.  A successful
    redeem rewrites the rows of the redeeming organization only: there
    [plan_type] becomes [appsumo_lifetime] and [appsumo_tier] is non-null,
    while [subscription_tier] keeps its value, so the new row satisfies
    the invariant exactly when [subscription_tier] was null. *)
Theorem redeem_organization_state :
  (∀ e org_id code db r db',
     redeem_appsumo_code e org_id code db = Return (r, db') →
     r !! "success" = Some (JBool true) →
     Forall2 (λ o o',
        o_id o' = o_id o ∧
        o_subscription_tier o' = o_subscription_tier o ∧
        (org_matches org_id o = false → o' = o) ∧
        (org_matches org_id o = true →
           o_plan_type o' = Some "appsumo_lifetime" ∧
           is_Some (o_appsumo_tier o') ∧
           (org_invariant o' ↔ o_subscription_tier o = None)))
       (organizations db) (organizations db')) ∧
  (∀ e org_id db r db',
     get_current_usage e org_id db = Return (r, db') →
     organizations db' = organizations db) ∧
  (∀ e org_id usage_type amount db b db',
     increment_usage e org_id usage_type amount db = Return (b, db') →
     organizations db' = organizations db) ∧
  (∀ code db r db',
     check_appsumo_code code db = Return (r, db') →
     organizations db' = organizations db).
Proof.
  assert (∀ e org_id db r db',
            get_current_usage e org_id db = Return (r, db') →
            organizations db' = organizations db) as Hget.
  { intros e org_id db r db'. unfold get_current_usage.
    destruct (find _ _); [by intros [= _ <-]|].
    destruct org_id; [|done].
    destruct (references_organization _ _); [|done].
    by intros [= _ <-]. }
  split; [|split; [exact Hget|split]].
  - intros e org_id code db r db'. unfold redeem_appsumo_code.
    destruct (find (code_matches code) _) as [c|]; [|by intros [= <- _]].
    destruct (is_true (c_is_redeemed c)); [by intros [= <- _]|].
    set (org := find (org_matches org_id) (organizations db)).
    destruct (match org ≫= o_appsumo_tier with
              | Some t => _
              | None => _
              end) as [new_tier|]; [|done].
    simpl. destruct (references_organization db org_id); [|done].
    intros [= _ <-] _. simpl.
    apply Forall2_fmap_r, Forall_Forall2_diag, Forall_forall.
    intros o _. unfold compose. cbv beta.
    destruct (org_matches org_id o) eqn:Ho.
    + split; [done|]. split; [done|]. split; [done|].
      intros _. split; [done|]. split; [by eexists|].
      apply upgraded_invariant.
    + split; [done|]. split; [done|]. split; done.
  - intros e org_id usage_type amount db b db'. unfold increment_usage.
    destruct (get_current_usage e org_id db) as [[r db1]|] eqn:Hcur; [|done].
    apply Hget in Hcur. simpl.
    repeat case_match; simpl; try done;
      match goal with
      | |- context [update_where ?c ?f ?l] =>
          destruct (update_where c f l); simpl; [|done]
      | _ => idtac
      end; by intros [= _ <-].
  - intros code db r db'. unfold check_appsumo_code.
    repeat case_match; by intros [= _ <-].
Qed.

Lemma redeem_organization_state_witness :
  ∃ r db',
    redeem_appsumo_code sample_env (Some 1%N) (Some "AUTOMATA-TEST-T1-001")
      sample_db = Return (r, db') ∧
    r !! "success" = Some (JBool true) ∧
    ∃ o', organizations db' !! 0%nat = Some o' ∧
      o_plan_type o' = Some "appsumo_lifetime" ∧ org_invariant o'.
Proof.
  eexists _, _. split; [reflexivity|]. split; [reflexivity|].
  pose proof (proj1 redeem_organization_state sample_env (Some 1%N)
                (Some "AUTOMATA-TEST-T1-001") sample_db _ _
                eq_refl eq_refl) as Hrows.
  apply Forall2_cons_1 in Hrows as [(_ & _ & _ & Hnew) _].
  destruct (Hnew eq_refl) as (Hplan & _ & Hinv).
  eexists. split; [reflexivity|]. split; [exact Hplan|].
  by apply Hinv.
Defined.

(** C3 as stated fails: a growth subscriber satisfying the invariant
    redeems a tier-1 code; afterwards both [subscription_tier] and
    [appsumo_tier] are non-null. *)
Lemma redeem_subscriber_breaks_invariant :
  org_invariant (sample_org 4%N "subscription" None [] (Some "growth")) ∧
  ∃ r db' after,
    redeem_appsumo_code sample_env (Some 4%N) (Some "AUTOMATA-TEST-T1-001")
      sample_db = Return (r, db') ∧
    r !! "success" = Some (JBool true) ∧
    organizations db' !! 3%nat = Some after ∧
    o_id after = 4%N ∧
    o_plan_type after = Some "appsumo_lifetime" ∧
    o_appsumo_tier after = Some 1 ∧
    o_subscription_tier after = Some "growth" ∧
    ¬ org_invariant after.
Proof.
  split.
  - left. simpl. eauto.
  - eexists _, _, _. split; [reflexivity|].
    repeat split; try reflexivity.
    intros [(_ & Hnone & _)|(_ & Hsub & _)]; discriminate.
Qed.

(** ** Code validity check *)

Lemma find_same_validity (code : option string)
    (l1 l2 : list appsumo_codes_row) :
  Forall2 same_validity l1 l2 →
  match find (code_matches code) l1, find (code_matches code) l2 with
  | Some c1, Some c2 => same_validity c1 c2
  | None, None => True
  | _, _ => False
  end.
Proof.
  induction 1 as [|c1 c2 l1 l2 Hc _ IH]; [done|]. simpl.
  assert (code_matches code c1 = code_matches code c2) as ->
    by (unfold code_matches; by destruct Hc as (-> & _)).
  by destruct (code_matches code c2).
Qed.

Lemma two_keys_dom (k : string) (v w : json) :
  k = "tier" ∨ k = "error" →
  dom (<["valid" := v]> (<[k := w]> (∅ : jsonb)))
    ⊆ ({[ "valid"; "tier"; "error" ]} : gset string).
Proof.
  intros Hk. rewrite !dom_insert_L, dom_empty_L.
  intros x Hx. apply elem_of_union in Hx as [Hx|Hx].
  - apply elem_of_singleton in Hx as ->.
    apply elem_of_union_l, elem_of_union_l. by apply elem_of_singleton.
  - apply elem_of_union in Hx as [Hx|Hx]; [|by apply elem_of_empty in Hx].
    apply elem_of_singleton in Hx as ->.
    destruct Hk as [->| ->].
    + apply elem_of_union_l, elem_of_union_r. by apply elem_of_singleton.
    + apply elem_of_union_r. by apply elem_of_singleton.
Qed.

(** C6, as the code has it: the check returns the database it was given;
    its result has no key besides [valid], [tier] and [error]; and it is
    the same for any two code tables that agree on each record's code,
    tier and redeemed flag, whatever the other columns hold.  (The [error]
    text does tell a missing code from a redeemed one.) *)
Theorem check_appsumo_code_read_only (code : option string) (db : database) :
  ∃ r, check_appsumo_code code db = Return (r, db) ∧
    dom r ⊆ ({[ "valid"; "tier"; "error" ]} : gset string) ∧
    ∀ db2, Forall2 same_validity (appsumo_codes db) (appsumo_codes db2) →
           check_appsumo_code code db2 = Return (r, db2).
Proof.
  unfold check_appsumo_code.
  destruct (find (code_matches code) (appsumo_codes db)) as [c|] eqn:Hfind.
  - destruct (is_true (c_is_redeemed c)) eqn:Hred;
      (eexists; split; [reflexivity|]; split; [apply two_keys_dom; auto|]);
      intros db2 Hsame; apply (find_same_validity code) in Hsame;
      rewrite Hfind in Hsame;
      destruct (find _ (appsumo_codes db2)) as [c2|]; try done;
      destruct Hsame as (_ & Htier & Hflag);
      by rewrite <- Hflag, Hred, <- ?Htier.
  - eexists; split; [reflexivity|]; split; [apply two_keys_dom; auto|].
    intros db2 Hsame. apply (find_same_validity code) in Hsame.
    rewrite Hfind in Hsame.
    by destruct (find _ (appsumo_codes db2)).
Qed.

Lemma check_appsumo_code_read_only_witness :
  ∃ r, check_appsumo_code (Some "AUTOMATA-TEST-T2-001") sample_db
       = Return (r, sample_db) ∧
    check_appsumo_code (Some "AUTOMATA-TEST-T2-001")
      {| organizations := [];
         appsumo_codes :=
           map (λ c, sample_code 7%N (c_code c) (c_tier c) "")
               sample_codes;
         usage_tracking := [] |}
    = Return (r, {| organizations := [];
                    appsumo_codes :=
                      map (λ c, sample_code 7%N (c_code c) (c_tier c) "")
                          sample_codes;
                    usage_tracking := [] |}).
Proof.
  destruct (check_appsumo_code_read_only (Some "AUTOMATA-TEST-T2-001")
              sample_db) as (r & Hrun & _ & Hsame).
  exists r. split; [exact Hrun|].
  apply Hsame. simpl. unfold sample_codes.
  repeat (apply Forall2_cons; split; [by repeat split|]).
  apply Forall2_nil_2.
Defined.

(** C6 as stated fails: on the store in which the first tier-1 code has
    been redeemed, that code and a code that does not exist both yield
    [valid = false] and no [tier], yet the results differ in [error]. *)
Lemma check_appsumo_code_distinguishes :
  ∃ r1 r2,
    check_appsumo_code (Some "AUTOMATA-TEST-T1-001") sample_db_redeemed
      = Return (r1, sample_db_redeemed) ∧
    check_appsumo_code (Some "AUTOMATA-TEST-T9-001") sample_db_redeemed
      = Return (r2, sample_db_redeemed) ∧
    r1 !! "valid" = r2 !! "valid" ∧ r1 !! "tier" = r2 !! "tier" ∧
    r1 !! "error" = Some (JText "Code already redeemed") ∧
    r2 !! "error" = Some (JText "Code not found") ∧
    r1 ≠ r2.
Proof.
  eexists _, _. split; [reflexivity|]. split; [reflexivity|].
  repeat split; try reflexivity.
  intros Heq. apply (f_equal (λ r : jsonb, r !! "error")) in Heq.
  discriminate Heq.
Qed.

(** ** Usage counters *)

Lemma date_eqb_refl (d : date) : date_eqb d d = true.
Proof. unfold date_eqb. by rewrite !Z.eqb_refl. Qed.

Lemma find_app_None {A} (p : A → bool) (l l' : list A) :
  find p l = None → find p (l ++ l') = find p l'.
Proof.
  induction l as [|x l IH]; [done|]. simpl.
  destruct (p x); [done|]. exact IH.
Qed.

(** Once the current period has a record, [get_current_usage] returns the
    first such record and changes nothing. *)
Lemma get_current_usage_found (e : env) (org_id : option uuid)
    (db : database) (r : usage_tracking_row) :
  current_record e org_id db = Some r →
  get_current_usage e org_id db = Return (r, db).
Proof. unfold current_record, get_current_usage. by intros ->. Qed.

(** [get_current_usage] for an organization of the store returns, and the
    record it returns is the current record of the database it leaves. *)
Lemma get_current_usage_total (e : env) (i : uuid) (db : database) :
  references_organization db (Some i) = true →
  ∃ r db', get_current_usage e (Some i) db = Return (r, db') ∧
    current_record e (Some i) db' = Some r ∧
    (current_record e (Some i) db = None →
       u_emails_sent r = Some 0 ∧ u_sms_sent r = Some 0 ∧
       u_ai_analyses_used r = Some 0) ∧
    (∀ r0, current_record e (Some i) db = Some r0 → r = r0 ∧ db' = db).
Proof.
  intros Hfk. unfold get_current_usage, current_record.
  destruct (find _ (usage_tracking db)) as [r0|] eqn:Hfind.
  - exists r0, db. split; [done|]. split; [done|]. split; [done|].
    by intros r1 [= <-].
  - rewrite Hfk. eexists _, _. split; [reflexivity|]. simpl.
    split; [|done].
    rewrite find_app_None by done. simpl.
    unfold current_usage_row. simpl.
    by rewrite N.eqb_refl, date_eqb_refl.
Qed.

(** C9: for an organization of the store and a counter kind other than
    [emails], [sms] and [ai_analyses], [increment_usage] returns TRUE
    without raising and does precisely what [get_current_usage] does: the
    current period's record (created with zero counters when it did not
    exist) is the same before and after, and every usage row that was
    there is still there. *)
Theorem increment_usage_unknown_kind (e : env) (db : database) (i : uuid)
    (usage_type : option string) (amount : option Z) :
  references_organization db (Some i) = true →
  usage_type ≠ Some "emails" →
  usage_type ≠ Some "sms" →
  usage_type ≠ Some "ai_analyses" →
  ∃ r db',
    increment_usage e (Some i) usage_type amount db = Return (true, db') ∧
    get_current_usage e (Some i) db = Return (r, db') ∧
    get_current_usage e (Some i) db' = Return (r, db') ∧
    (∀ r0, current_record e (Some i) db = Some r0 →
       db' = db ∧
       u_emails_sent r = u_emails_sent r0 ∧
       u_sms_sent r = u_sms_sent r0 ∧
       u_ai_analyses_used r = u_ai_analyses_used r0) ∧
    (current_record e (Some i) db = None →
       u_emails_sent r = Some 0 ∧ u_sms_sent r = Some 0 ∧
       u_ai_analyses_used r = Some 0) ∧
    usage_tracking db `prefix_of` usage_tracking db'.
Proof.
  intros Hfk He Hs Ha.
  destruct (get_current_usage_total e i db Hfk)
    as (r & db' & Hrun & Hcur & Hnew & Hold).
  exists r, db'. unfold increment_usage. rewrite Hrun. simpl.
  assert (∀ s, usage_type ≠ Some s →
               is_true (sql_eq String.eqb usage_type (Some s)) = false)
    as Hkind.
  { intros s Hne. destruct usage_type as [u|]; [|done]. simpl.
    destruct (String.eqb u s) eqn:Heq; [|done].
    apply String.eqb_eq in Heq. congruence. }
  rewrite !Hkind by done.
  split; [done|]. split; [done|].
  split; [by apply get_current_usage_found|].
  split; [|split; [exact Hnew|]].
  - intros r0 Hr0. destruct (Hold r0 Hr0) as [-> ->]. done.
  - revert Hrun. unfold get_current_usage.
    destruct (find _ _); [by intros [= _ <-]|].
    rewrite Hfk. intros [= _ <-]. simpl. by apply prefix_app_r.
Qed.

Lemma increment_usage_unknown_kind_witness :
  (∃ r,
     increment_usage sample_env (Some 1%N) (Some "push") (Some 5)
       sample_db_metered = Return (true, sample_db_metered) ∧
     get_current_usage sample_env (Some 1%N) sample_db_metered
       = Return (r, sample_db_metered) ∧
     u_emails_sent r = Some 7 ∧ u_sms_sent r = Some 3 ∧
     u_ai_analyses_used r = None) ∧
  (∃ r db',
     increment_usage sample_env (Some 1%N) (Some "push") (Some 5) sample_db
       = Return (true, db') ∧
     get_current_usage sample_env (Some 1%N) db' = Return (r, db') ∧
     u_emails_sent r = Some 0 ∧ u_sms_sent r = Some 0 ∧
     u_ai_analyses_used r = Some 0).
Proof.
  split.
  - destruct (increment_usage_unknown_kind sample_env sample_db_metered 1%N
                (Some "push") (Some 5))
      as (r & db' & Hrun & _ & Hafter & Hold & _);
      [reflexivity | discriminate | discriminate | discriminate |].
    destruct (Hold (sample_usage 503%N 1%N 2 29 (Some 7) (Some 3) None)
                eq_refl) as (-> & Hemails & Hsms & Hanalyses).
    exists r. split; [exact Hrun|]. split; [exact Hafter|].
    rewrite Hemails, Hsms, Hanalyses. done.
  - destruct (increment_usage_unknown_kind sample_env sample_db 1%N
                (Some "push") (Some 5))
      as (r & db' & Hrun & _ & Hafter & _ & Hnew & _);
      [reflexivity | discriminate | discriminate | discriminate |].
    exists r, db'. split; [exact Hrun|]. split; [exact Hafter|].
    by apply Hnew.
Defined.

(** ** Worked examples *)

(** [Math.round] works on the binary64 product, not on the exact quotient:
    23 of 40 is 57.49999999999999 percent and rounds to 57. *)
Example percent_23_of_40 : percent_of 23 40 = 57%float.
Proof. reflexivity. Qed.

Example round_ties_up :
  Math_round 2.5 = 3%float ∧ Math_round (-2.5) = (-2)%float.
Proof. split; reflexivity. Qed.

(** A limit of -1 is unlimited: the enterprise plan allows any number of
    projects and the result carries neither [current] nor [limit]. *)
Example checkLimit_unlimited :
  checkLimit
    (Some {| plan_type := Some "subscription"; appsumo_tier := None;
             subscription_tier := Some "enterprise";
             plan_limits_override := None |})
    {[ "projects" := VNum 1000000%float ]} "projects" VUndefined initial_heap
  = Ok ({| allowed := true; warning := None; message_of := None;
           upgradeRequired := None; current := None; limit_of := None |},
        initial_heap).
Proof. reflexivity. Qed.

(** The denial branch reads [org.plan_type]: with a null organization the
    call throws once the free limit is exceeded. *)
Example checkLimit_null_org_denied :
  checkLimit None {[ "projects" := VNum 1%float ]} "projects" VUndefined
    initial_heap
  = Throw TypeError.
Proof. reflexivity. Qed.

(** One project on the free plan: a second one is denied, with the
    message of the free plan. *)
Example checkLimit_free_message :
  checkLimit (Some freeOrg) {[ "projects" := VNum 1%float ]} "projects"
    VUndefined initial_heap
  = Ok ({| allowed := false; warning := None;
           message_of :=
             Some [ Lit "You've reached your "; Str (VStr "projects");
                    Lit " limit ("; Locale (VNum 1%float);
                    Lit "). Upgrade to unlock more capacity." ];
           upgradeRequired := Some true; current := Some (VNum 1%float);
           limit_of := Some (VNum 1%float) |}, initial_heap).
Proof. reflexivity. Qed.

(** Three increments of 5 e-mails leave 15 in the period's record and 0
    in the other counters. *)
Example increment_emails_three_times :
  ∃ db1 db2 db3 r,
    increment_usage sample_env (Some 1%N) (Some "emails") (Some 5) sample_db
      = Return (true, db1) ∧
    increment_usage sample_env (Some 1%N) (Some "emails") (Some 5) db1
      = Return (true, db2) ∧
    increment_usage sample_env (Some 1%N) (Some "emails") (Some 5) db2
      = Return (true, db3) ∧
    get_current_usage sample_env (Some 1%N) db3 = Return (r, db3) ∧
    u_emails_sent r = Some 15 ∧ u_sms_sent r = Some 0 ∧
    u_ai_analyses_used r = Some 0 ∧
    u_period_start r = {| year := 2024; month := 2; day := 1 |} ∧
    u_period_end r = {| year := 2024; month := 2; day := 29 |}.
Proof. repeat eexists. Qed.

(** Redeeming for an organization the store does not know violates the
    foreign key of [redeemed_by_org_id]; a tier sum beyond INTEGER raises as
    well.  Neither call redeems anything. *)
Example redeem_unknown_organization :
  redeem_appsumo_code sample_env (Some 77%N) (Some "AUTOMATA-TEST-T1-001")
    sample_db = Raise foreign_key_violation.
Proof. reflexivity. Qed.

Example redeem_tier_overflow :
  redeem_appsumo_code sample_env (Some 5%N) (Some "AUTOMATA-TEST-T1-001")
    {| organizations :=
         [ sample_org 5%N "appsumo_lifetime" (Some int4_max) [] None ];
       appsumo_codes := sample_codes; usage_tracking := [] |}
  = Raise numeric_value_out_of_range.
Proof. reflexivity. Qed.

(** * Further properties of the stored procedures *)

Local Open Scope Z_scope.

(** ** Rewriting rows *)


Lemma update_where_raise {R} (cond : R → bool) (set : R → result R)
    (rows : list R) (r : R) (err : sql_error) :
  find cond rows = Some r → set r = Raise err →
  update_where cond set rows = Raise err.
Proof.
  induction rows as [|x rows IH]; [done|]. simpl.
  destruct (cond x) eqn:Hx.
  - intros [= ->] Hset. by rewrite Hset.
  - intros Hfind Hset. simpl. by rewrite IH.
Qed.

Lemma find_map_same {R} (cond : R → bool) (g : R → R) (rows : list R) :
  (∀ r, cond (g r) = cond r) →
  find cond (map g rows) = g <$> find cond rows.
Proof.
  intros Hg. induction rows as [|x rows IH]; [done|]. simpl.
  rewrite Hg. by destruct (cond x).
Qed.

Lemma find_cond {R} (cond : R → bool) (rows : list R) (r : R) :
  find cond rows = Some r → cond r = true ∧ r ∈ rows.
Proof.
  intros Hfind. apply find_some in Hfind as [Hin Hc].
  split; [done|]. by apply list_elem_of_In.
Qed.

Lemma find_none_all {R} (cond : R → bool) (rows : list R) (r : R) :
  find cond rows = None → r ∈ rows → cond r = false.
Proof.
  intros Hnone Hin. apply list_elem_of_In in Hin.
  by apply (find_none _ _ Hnone).
Qed.

(** ** Redemption, step by step *)

(** The two ways [redeem_appsumo_code] returns: a rejection that leaves
    the database alone, or a redemption of the first record [c] carrying
    the code, at a tier [new_tier]. *)
Lemma redeem_cases (e : env) (org_id : option uuid) (code : option string)
    (db : database) (r : jsonb) (db' : database) :
  redeem_appsumo_code e org_id code db = Return (r, db') →
  (r !! "success" = Some (JBool false) ∧ db' = db) ∨
  ∃ c new_tier,
    find (code_matches code) (appsumo_codes db) = Some c ∧
    is_true (c_is_redeemed c) = false ∧
    references_organization db org_id = true ∧
    r !! "success" = Some (JBool true) ∧
    r !! "tier" = Some (JInt new_tier) ∧
    match find (org_matches org_id) (organizations db) ≫= o_appsumo_tier with
    | None => new_tier = c_tier c
    | Some t => in_int4 (t + c_tier c) = true ∧
                new_tier = Z.min (t + c_tier c) 3
    end ∧
    db' = {| organizations :=
               map (λ o, if org_matches org_id o
                         then upgrade_organization e new_tier
                                (find (org_matches org_id) (organizations db)
                                   ≫= o_appsumo_codes) code o
                         else o) (organizations db);
             appsumo_codes :=
               map (λ x, if N.eqb (c_id x) (c_id c)
                         then mark_redeemed e org_id x else x)
                   (appsumo_codes db);
             usage_tracking := usage_tracking db |}.
Proof.
  unfold redeem_appsumo_code.
  destruct (find (code_matches code) _) as [c|] eqn:Hfind;
    [|intros [= <- <-]; by left].
  destruct (is_true (c_is_redeemed c)) eqn:Hred;
    [intros [= <- <-]; by left|].
  set (org := find (org_matches org_id) (organizations db)).
  intros Hrun. right. exists c.
  destruct (org ≫= o_appsumo_tier) as [t|] eqn:Hcur; simpl in Hrun.
  - unfold int4_plus in Hrun.
    destruct (in_int4 (t + c_tier c)) eqn:Hrange; [|done]. simpl in Hrun.
    destruct (references_organization db org_id) eqn:Hfk; [|done].
    injection Hrun as <- <-. exists (Z.min (t + c_tier c) 3).
    pose proof (success_json (Z.min (t + c_tier c) 3)) as Hjson.
    repeat split; try done; apply Hjson.
  - destruct (references_organization db org_id) eqn:Hfk; [|done].
    injection Hrun as <- <-. exists (c_tier c).
    pose proof (success_json (c_tier c)) as Hjson.
    repeat split; try done; apply Hjson.
Qed.

Lemma code_matches_mark (e : env) (org_id : option uuid)
    (code : option string) (k : uuid) (x : appsumo_codes_row) :
  code_matches code
    (if N.eqb (c_id x) k then mark_redeemed e org_id x else x)
  = code_matches code x.
Proof. by destruct (N.eqb (c_id x) k). Qed.

(** X1: a code that has been redeemed is spent.  After a successful
    redemption the validity check reports the code as already redeemed,
    and any further redemption of it, by whatever organization, is
    rejected and leaves the database as it is. *)
Theorem redeemed_code_is_spent (e : env) (org_id : option uuid)
    (code : option string) (db : database) (r : jsonb) (db' : database) :
  redeem_appsumo_code e org_id code db = Return (r, db') →
  r !! "success" = Some (JBool true) →
  check_appsumo_code code db'
    = Return ({[ "valid" := JBool false;
                 "error" := JText "Code already redeemed" ]}, db') ∧
  ∀ e2 org2,
    redeem_appsumo_code e2 org2 code db'
    = Return ({[ "success" := JBool false;
                 "error" := JText "Code already redeemed" ]}, db').
Proof.
  intros Hrun Hok.
  apply redeem_cases in Hrun
    as [[Hno _]|(c & t & Hfind & _ & _ & _ & _ & _ & ->)]; [congruence|].
  assert (find (code_matches code)
            (map (λ x, if N.eqb (c_id x) (c_id c)
                       then mark_redeemed e org_id x else x)
                 (appsumo_codes db))
          = Some (mark_redeemed e org_id c)) as Hspent.
  { rewrite find_map_same by (intros x; apply code_matches_mark).
    rewrite Hfind. simpl. by rewrite N.eqb_refl. }
  split.
  - unfold check_appsumo_code. simpl. by rewrite Hspent.
  - intros e2 org2. unfold redeem_appsumo_code. simpl. by rewrite Hspent.
Qed.

Lemma redeemed_code_is_spent_witness :
  ∃ r db',
    redeem_appsumo_code sample_env (Some 2%N) (Some "AUTOMATA-TEST-T1-001")
      sample_db = Return (r, db') ∧
    redeem_appsumo_code sample_env (Some 3%N) (Some "AUTOMATA-TEST-T1-001")
      db'
    = Return ({[ "success" := JBool false;
                 "error" := JText "Code already redeemed" ]}, db').
Proof.
  eexists _, _. split; [reflexivity|].
  eapply (redeemed_code_is_spent sample_env (Some 2%N)
            (Some "AUTOMATA-TEST-T1-001") sample_db); reflexivity.
Defined.

Lemma org_matches_id (org_id : option uuid) (o : organizations_row) :
  org_matches org_id o = true ↔ org_id = Some (o_id o).
Proof.
  unfold org_matches. destruct org_id as [i|]; simpl; [|done].
  destruct (N.eqb_spec (o_id o) i) as [->|Hne]; simpl; [done|].
  split; [done|]. intros [= ->]. done.
Qed.

(** With [id] a primary key, the row [SELECT ... WHERE id = org_id] reads
    is the organization's own row. *)
Lemma find_own_row (org_id : option uuid) (orgs : list organizations_row)
    (o : organizations_row) :
  NoDup (map o_id orgs) → o ∈ orgs → org_matches org_id o = true →
  find (org_matches org_id) orgs = Some o.
Proof.
  intros Hnodup Hin Ho. induction orgs as [|x orgs IH]; [by inversion Hin|].
  simpl in *. apply NoDup_cons in Hnodup as [Hx Hnodup].
  destruct (org_matches org_id x) eqn:Hmx.
  - apply elem_of_cons in Hin as [->|Hin]; [done|].
    apply org_matches_id in Ho, Hmx.
    destruct Hx. apply (list_elem_of_fmap_2' o_id _ o); [done|congruence].
  - apply elem_of_cons in Hin as [->|Hin]; [congruence|]. by apply IH.
Qed.

(** X2: what a redemption records.  The usage records are untouched.  The
    record of the code is afterwards redeemed by the given organization at
    the current time and keeps its id, tier, creation time and notes, and
    records with another id are still there.  With [id] a key of
    [organizations], every organization row keeps its position, the
    redeeming organization's own list of codes gets the code appended
    after its earlier entries, and [plan_changed_at] is the current
    time. *)
Theorem redeem_records_redemption (e : env) (org_id : option uuid)
    (code : option string) (db : database) (r : jsonb) (db' : database) :
  NoDup (map o_id (organizations db)) →
  redeem_appsumo_code e org_id code db = Return (r, db') →
  r !! "success" = Some (JBool true) →
  usage_tracking db' = usage_tracking db ∧
  (∃ c c',
     find (code_matches code) (appsumo_codes db) = Some c ∧
     find (code_matches code) (appsumo_codes db') = Some c' ∧
     c_is_redeemed c' = Some true ∧
     c_redeemed_by_org_id c' = org_id ∧
     c_redeemed_at c' = Some (NOW e) ∧
     c_id c' = c_id c ∧ c_tier c' = c_tier c ∧
     c_created_at c' = c_created_at c ∧ c_notes c' = c_notes c ∧
     ∀ x, x ∈ appsumo_codes db → c_id x ≠ c_id c → x ∈ appsumo_codes db') ∧
  Forall2 (λ o o',
     org_matches org_id o = true →
     o_appsumo_codes o'
       = Some (coalesce_array (o_appsumo_codes o) ++ [code]) ∧
     o_plan_changed_at o' = Some (NOW e) ∧
     o_stripe_customer_id o' = o_stripe_customer_id o ∧
     o_plan_limits_override o' = o_plan_limits_override o)
    (organizations db) (organizations db').
Proof.
  intros Hkey Hrun Hok.
  apply redeem_cases in Hrun
    as [[Hno _]|(c & t & Hfind & _ & _ & _ & _ & _ & ->)]; [congruence|].
  simpl. split; [done|]. split.
  - exists c, (mark_redeemed e org_id c). split; [done|].
    split.
    { rewrite find_map_same by (intros x; apply code_matches_mark).
      rewrite Hfind. simpl. by rewrite N.eqb_refl. }
    repeat split; try done.
    intros x Hx Hne. apply list_elem_of_fmap. exists x. split; [|done].
    apply N.eqb_neq in Hne. by rewrite Hne.
  - apply Forall2_fmap_r, Forall_Forall2_diag, Forall_forall.
    intros o Hin. unfold compose. cbv beta. intros Ho. rewrite Ho.
    rewrite (find_own_row org_id _ o Hkey) by done. done.
Qed.

Lemma sample_org_ids_distinct : NoDup (map o_id (organizations sample_db)).
Proof. by apply (bool_decide_unpack _). Qed.

Lemma redeem_records_redemption_witness :
  ∃ r db' o',
    redeem_appsumo_code sample_env (Some 2%N) (Some "AUTOMATA-TEST-T1-001")
      sample_db = Return (r, db') ∧
    organizations db' !! 1%nat = Some o' ∧
    o_appsumo_codes o'
      = Some [Some "OLD-T1"; Some "AUTOMATA-TEST-T1-001"].
Proof.
  destruct (redeem_records_redemption sample_env (Some 2%N)
              (Some "AUTOMATA-TEST-T1-001") sample_db
              (<["success" := JBool true]>
                 (<["tier" := JInt 2]>
                    (<["message" :=
                         JText "Code redeemed successfully! Your plan has been upgraded to Tier 2"]> ∅)))
              sample_db_redeemed)
    as (_ & _ & Horgs).
  - exact sample_org_ids_distinct.
  - reflexivity.
  - reflexivity.
  - eexists _, sample_db_redeemed, _. split; [reflexivity|].
    split; [reflexivity|].
    apply Forall2_cons_1 in Horgs as [_ Horgs].
    apply Forall2_cons_1 in Horgs as [Hsecond _].
    by destruct (Hsecond eq_refl) as [-> _].
Defined.

Lemma small_sum_in_int4 (t c : Z) :
  1 ≤ t ≤ 3 → 1 ≤ c ≤ 3 → in_int4 (t + c) = true.
Proof.
  intros Ht Hc. unfold in_int4, int4_min, int4_max.
  apply andb_true_intro. split; apply Z.leb_le; lia.
Qed.

(** X3: tiers stay within range and never go down.  When every
    organization's [appsumo_tier] is NULL or between 1 and 3, every code's
    tier is between 1 and 3 (the check constraint), and [id] is a key of
    [organizations], then a redemption never raises an overflow, leaves
    both ranges intact, lowers no organization's tier (NULL counting as 0)
    and, if it succeeds, raises the redeeming organization's tier unless it
    was already 3. *)
Theorem redeem_keeps_tiers_in_range (e : env) (org_id : option uuid)
    (code : option string) (db : database) :
  NoDup (map o_id (organizations db)) →
  Forall (λ o, tier_in_range (o_appsumo_tier o)) (organizations db) →
  Forall code_tier_checked (appsumo_codes db) →
  redeem_appsumo_code e org_id code db ≠ Raise numeric_value_out_of_range ∧
  ∀ r db',
    redeem_appsumo_code e org_id code db = Return (r, db') →
    Forall (λ o, tier_in_range (o_appsumo_tier o)) (organizations db') ∧
    Forall code_tier_checked (appsumo_codes db') ∧
    Forall2 (λ o o',
       default 0 (o_appsumo_tier o) ≤ default 0 (o_appsumo_tier o') ∧
       (r !! "success" = Some (JBool true) →
        org_matches org_id o = true →
        default 0 (o_appsumo_tier o) < 3 →
        default 0 (o_appsumo_tier o) < default 0 (o_appsumo_tier o')))
      (organizations db) (organizations db').
Proof.
  intros Hkey Htiers Hcodes.
  assert (∀ c t,
            find (code_matches code) (appsumo_codes db) = Some c →
            find (org_matches org_id) (organizations db) ≫= o_appsumo_tier
              = Some t →
            1 ≤ t ≤ 3 ∧ 1 ≤ c_tier c ≤ 3) as Hsmall.
  { intros c t Hc Ht. split.
    - destruct (find (org_matches org_id) _) as [o|] eqn:Ho; [|done].
      apply find_cond in Ho as [_ Hin]. simpl in Ht.
      rewrite Forall_forall in Htiers. specialize (Htiers o Hin).
      by rewrite Ht in Htiers.
    - apply find_cond in Hc as [_ Hin].
      rewrite Forall_forall in Hcodes. by apply Hcodes. }
  split.
  - unfold redeem_appsumo_code.
    destruct (find (code_matches code) _) as [c|] eqn:Hc; [|done].
    destruct (is_true (c_is_redeemed c)); [done|].
    destruct (find (org_matches org_id) (organizations db) ≫= o_appsumo_tier)
      as [t|] eqn:Ht; simpl.
    + destruct (Hsmall c t eq_refl eq_refl) as [Hrt Hrc].
      unfold int4_plus. rewrite small_sum_in_int4 by done. simpl.
      by destruct (references_organization db org_id).
    + by destruct (references_organization db org_id).
  - intros r db' Hrun.
    apply redeem_cases in Hrun
      as [[Hno ->]|(c & n & Hc & _ & _ & _ & _ & Hnew & ->)].
    { split; [done|]. split; [done|].
      apply Forall_Forall2_diag, Forall_forall. intros o _.
      split; [lia|]. congruence. }
    assert (1 ≤ c_tier c ≤ 3) as Hrc.
    { apply find_cond in Hc as [_ Hin].
      rewrite Forall_forall in Hcodes. by apply Hcodes. }
    assert (1 ≤ n ≤ 3) as Hn.
    { destruct (find (org_matches org_id) (organizations db)
                  ≫= o_appsumo_tier) as [t|] eqn:Ht.
      - destruct (Hsmall c t Hc eq_refl) as [Hrt _].
        destruct Hnew as [_ ->]. lia.
      - by subst n. }
    simpl. split; [|split].
    + apply Forall_fmap, Forall_forall. intros o Hin. simpl.
      destruct (org_matches org_id o); [done|].
      rewrite Forall_forall in Htiers. by apply Htiers.
    + apply Forall_fmap, Forall_forall. intros x Hin. simpl.
      rewrite Forall_forall in Hcodes. specialize (Hcodes x Hin).
      by destruct (N.eqb (c_id x) (c_id c)).
    + apply Forall2_fmap_r, Forall_Forall2_diag, Forall_forall.
      intros o Hin. unfold compose. cbv beta.
      destruct (org_matches org_id o) eqn:Ho; [|split; [lia|done]].
      rewrite (find_own_row org_id _ o Hkey Hin Ho) in Hnew. simpl in *.
      rewrite Forall_forall in Htiers. specialize (Htiers o Hin).
      destruct (o_appsumo_tier o) as [t|]; simpl in *.
      * destruct Hnew as [_ ->]. split; [lia|]. intros _ _ Hlt. lia.
      * split; [lia|]. intros _ _ _. lia.
Qed.

Lemma sample_tiers_in_range :
  Forall (λ o, tier_in_range (o_appsumo_tier o)) (organizations sample_db) ∧
  Forall code_tier_checked (appsumo_codes sample_db).
Proof.
  split.
  - repeat constructor; simpl; lia.
  - repeat constructor; unfold code_tier_checked; simpl; lia.
Qed.

Lemma redeem_keeps_tiers_in_range_witness :
  ∃ r db',
    redeem_appsumo_code sample_env (Some 3%N) (Some "AUTOMATA-TEST-T3-001")
      sample_db = Return (r, db') ∧
    Forall (λ o, tier_in_range (o_appsumo_tier o)) (organizations db').
Proof.
  eexists _, _. split; [reflexivity|].
  destruct (redeem_keeps_tiers_in_range sample_env (Some 3%N)
              (Some "AUTOMATA-TEST-T3-001") sample_db
              sample_org_ids_distinct (proj1 sample_tiers_in_range)
              (proj2 sample_tiers_in_range)) as [_ Hkeep].
  by destruct (Hkeep _ _ eq_refl) as [Hrange _].
Defined.

Lemma same_key_same_row {R K} (key : R → K) (rows : list R) (x y : R) :
  NoDup (map key rows) → x ∈ rows → y ∈ rows → key x = key y → x = y.
Proof.
  intros Hnodup Hx Hy Hkey. induction rows as [|z rows IH];
    [by inversion Hx|].
  simpl in Hnodup. apply NoDup_cons in Hnodup as [Hz Hnodup].
  apply elem_of_cons in Hx as [->|Hx], Hy as [->|Hy]; try done.
  - destruct Hz. rewrite Hkey. by apply list_elem_of_fmap_2.
  - destruct Hz. rewrite <- Hkey. by apply list_elem_of_fmap_2.
  - by apply IH.
Qed.

Lemma bind_Return {A B} (m : result A) (f : A → result B) (b : B) :
  m ≫= f = Return b → ∃ a, m = Return a ∧ f a = Return b.
Proof. destruct m as [a|]; [|done]. intros Hf. by exists a. Qed.

Lemma get_current_usage_frame (e : env) (org_id : option uuid)
    (db : database) (r : usage_tracking_row) (db' : database) :
  get_current_usage e org_id db = Return (r, db') →
  organizations db' = organizations db ∧
  appsumo_codes db' = appsumo_codes db.
Proof.
  unfold get_current_usage.
  destruct (find _ _); [by intros [= _ <-]|].
  destruct org_id; [|done].
  destruct (references_organization _ _); [|done].
  by intros [= _ <-].
Qed.

Lemma update_usage_snapshots_frame (e : env) (org_id : option uuid)
    (live : domain) (db : database) (b : bool) (db' : database) :
  update_usage_snapshots e org_id live db = Return (b, db') →
  organizations db' = organizations db ∧
  appsumo_codes db' = appsumo_codes db.
Proof.
  unfold update_usage_snapshots. intros Hrun.
  apply bind_Return in Hrun as ([r db1] & Hcur & Hrun).
  apply get_current_usage_frame in Hcur.
  apply bind_Return in Hrun as (p & _ & Hrun).
  apply bind_Return in Hrun as (a & _ & Hrun).
  apply bind_Return in Hrun as (c & _ & Hrun).
  apply bind_Return in Hrun as (rows & _ & Hrun).
  by injection Hrun as _ <-.
Qed.

(** X4: redeemed is a terminal state.  With [id] a key of
    [appsumo_codes], a call of [redeem_appsumo_code] leaves every record
    that was already redeemed exactly as it was (its organization and
    time of redemption included); the other procedures do not touch the
    code table at all. *)
Theorem redeemed_records_frozen (db : database) :
  NoDup (map c_id (appsumo_codes db)) →
  (∀ e org_id code r db',
     redeem_appsumo_code e org_id code db = Return (r, db') →
     Forall2 (λ x x', is_true (c_is_redeemed x) = true → x' = x)
       (appsumo_codes db) (appsumo_codes db')) ∧
  (∀ code r db',
     check_appsumo_code code db = Return (r, db') →
     appsumo_codes db' = appsumo_codes db) ∧
  (∀ e org_id r db',
     get_current_usage e org_id db = Return (r, db') →
     appsumo_codes db' = appsumo_codes db) ∧
  (∀ e org_id usage_type amount b db',
     increment_usage e org_id usage_type amount db = Return (b, db') →
     appsumo_codes db' = appsumo_codes db) ∧
  (∀ e org_id live b db',
     update_usage_snapshots e org_id live db = Return (b, db') →
     appsumo_codes db' = appsumo_codes db).
Proof.
  intros Hkey.
  assert (∀ e org_id r db',
            get_current_usage e org_id db = Return (r, db') →
            appsumo_codes db' = appsumo_codes db) as Hget.
  { intros e org_id r db' Hrun.
    by apply get_current_usage_frame in Hrun as [_ ?]. }
  split; [|split; [|split; [exact Hget|split]]].
  - intros e org_id code r db' Hrun.
    apply redeem_cases in Hrun
      as [[_ ->]|(c & n & Hc & Hfresh & _ & _ & _ & _ & ->)].
    { by apply Forall_Forall2_diag, Forall_forall. }
    simpl. apply Forall2_fmap_r, Forall_Forall2_diag, Forall_forall.
    intros x Hx. unfold compose. cbv beta. intros Hred.
    destruct (N.eqb_spec (c_id x) (c_id c)) as [Hid|_]; [|done].
    apply find_cond in Hc as [_ Hin].
    rewrite (same_key_same_row c_id _ x c Hkey Hx Hin Hid) in Hred.
    congruence.
  - intros code r db'. unfold check_appsumo_code.
    repeat case_match; by intros [= _ <-].
  - intros e org_id usage_type amount b db'. unfold increment_usage.
    destruct (get_current_usage e org_id db) as [[r db1]|] eqn:Hcur; [|done].
    apply Hget in Hcur. simpl.
    repeat case_match; simpl; try done;
      match goal with
      | |- context [update_where ?c ?f ?l] =>
          destruct (update_where c f l); simpl; [|done]
      | _ => idtac
      end; by intros [= _ <-].
  - intros e org_id live b db' Hrun.
    by apply update_usage_snapshots_frame in Hrun as [_ ?].
Qed.

Lemma redeemed_records_frozen_witness :
  ∃ r db' x,
    redeem_appsumo_code sample_env (Some 3%N) (Some "AUTOMATA-TEST-T2-001")
      sample_db_redeemed = Return (r, db') ∧
    appsumo_codes sample_db_redeemed !! 0%nat = Some x ∧
    c_redeemed_by_org_id x = Some 2%N ∧
    appsumo_codes db' !! 0%nat = Some x.
Proof.
  destruct (redeemed_records_frozen sample_db_redeemed) as [Hredeem _].
  { by apply (bool_decide_unpack _). }
  eexists _, _, _. split; [reflexivity|].
  split; [reflexivity|]. split; [reflexivity|].
  specialize (Hredeem sample_env (Some 3%N) (Some "AUTOMATA-TEST-T2-001")
                _ _ eq_refl).
  apply Forall2_cons_1 in Hredeem as [Hfirst _].
  exact (f_equal Some (Hfirst eq_refl)).
Defined.

(** X5: the validity check predicts the redemption.  When the check says
    the code is not valid, a redemption by any organization is rejected
    and changes nothing; when it says the code is valid with tier [t], a
    redemption by an organization of the store succeeds (as long as the tier
    sum fits INTEGER), and an organization without a tier ends at tier
    [t]. *)
Theorem check_predicts_redeem (code : option string) (db : database) :
  ∃ rc, check_appsumo_code code db = Return (rc, db) ∧
    (rc !! "valid" = Some (JBool false) →
     ∀ e org_id, ∃ r,
       redeem_appsumo_code e org_id code db = Return (r, db) ∧
       r !! "success" = Some (JBool false)) ∧
    (rc !! "valid" = Some (JBool true) →
     ∃ t, rc !! "tier" = Some (JInt t) ∧
       ∀ e org_id,
         references_organization db org_id = true →
         let current := find (org_matches org_id) (organizations db)
                          ≫= o_appsumo_tier in
         (∀ t0, current = Some t0 → in_int4 (t0 + t) = true) →
         ∃ r db', redeem_appsumo_code e org_id code db = Return (r, db') ∧
           r !! "success" = Some (JBool true) ∧
           (current = None → r !! "tier" = Some (JInt t))).
Proof.
  unfold check_appsumo_code.
  destruct (find (code_matches code) (appsumo_codes db)) as [c|] eqn:Hc.
  - destruct (is_true (c_is_redeemed c)) eqn:Hred.
    + eexists. split; [reflexivity|]. split; [|intros Hv; discriminate Hv].
      intros _ e org_id. eexists. unfold redeem_appsumo_code.
      rewrite Hc, Hred. split; [reflexivity|]. apply lookup_insert_eq.
    + eexists. split; [reflexivity|]. split; [intros Hv; discriminate Hv|].
      intros _. exists (c_tier c).
      split; [by rewrite lookup_insert_ne, lookup_insert_eq|].
      intros e org_id Hfk Hrange.
      set (current := find (org_matches org_id) (organizations db)
                        ≫= o_appsumo_tier) in *.
      eexists _, _. split; [by apply redeem_success|].
      destruct (success_json (stacked_tier current (c_tier c))
                  (JText ("Code redeemed successfully! Your plan has been upgraded to Tier "
                          +:+ pretty (stacked_tier current (c_tier c)))))
        as [Hsuccess Htier].
      split; [exact Hsuccess|].
      intros Hcur. etrans; [exact Htier|]. by rewrite Hcur.
  - eexists. split; [reflexivity|]. split; [|intros Hv; discriminate Hv].
    intros _ e org_id. eexists. unfold redeem_appsumo_code.
    rewrite Hc. split; [reflexivity|]. apply lookup_insert_eq.
Qed.

Lemma check_predicts_redeem_witness :
  ∃ rc, check_appsumo_code (Some "AUTOMATA-TEST-T3-002") sample_db
        = Return (rc, sample_db) ∧
    rc !! "valid" = Some (JBool true) ∧
    ∃ r db', redeem_appsumo_code sample_env (Some 1%N)
               (Some "AUTOMATA-TEST-T3-002") sample_db = Return (r, db') ∧
      r !! "tier" = Some (JInt 3).
Proof.
  destruct (check_predicts_redeem (Some "AUTOMATA-TEST-T3-002") sample_db)
    as (rc & Hcheck & _ & Hvalid).
  exists rc. split; [exact Hcheck|].
  assert (rc !! "valid" = Some (JBool true)) as Hv.
  { assert (check_appsumo_code (Some "AUTOMATA-TEST-T3-002") sample_db
            = Return ({[ "valid" := JBool true; "tier" := JInt 3 ]},
                      sample_db)) as Hrun by reflexivity.
    rewrite Hcheck in Hrun. by injection Hrun as ->. }
  split; [exact Hv|].
  destruct (Hvalid Hv) as (t & Ht & Hredeem).
  assert (t = 3) as ->.
  { assert (check_appsumo_code (Some "AUTOMATA-TEST-T3-002") sample_db
            = Return ({[ "valid" := JBool true; "tier" := JInt 3 ]},
                      sample_db)) as Hrun by reflexivity.
    rewrite Hcheck in Hrun. injection Hrun as ->.
    rewrite lookup_insert_ne, lookup_singleton_eq in Ht by done.
    by injection Ht as <-. }
  destruct (Hredeem sample_env (Some 1%N) eq_refl) as (r & db' & Hrun & _ & Hr).
  { intros t0 Ht0. discriminate Ht0. }
  exists r, db'. split; [exact Hrun|]. by apply Hr.
Defined.

(** ** Usage periods *)

Lemma date_eqb_eq (a b : date) : date_eqb a b = true ↔ a = b.
Proof.
  destruct a as [y1 m1 d1], b as [y2 m2 d2]. unfold date_eqb. simpl.
  rewrite !andb_true_iff, !Z.eqb_eq. split.
  - by intros [[-> ->] ->].
  - by intros [= -> -> ->].
Qed.

Lemma current_usage_row_key (e : env) (i : uuid) (r : usage_tracking_row) :
  current_usage_row e (Some i) r = true
  ↔ usage_key r = (i, month_start (CURRENT_DATE e)).
Proof.
  unfold current_usage_row, usage_key. simpl.
  destruct (N.eqb_spec (u_organization_id r) i) as [->|Hne];
    destruct (date_eqb (u_period_start r) (month_start (CURRENT_DATE e)))
      eqn:Hd; simpl.
  - apply date_eqb_eq in Hd. by rewrite Hd.
  - split; [done|]. intros [= Hs]. apply date_eqb_eq in Hs. congruence.
  - split; [done|]. intros [= Hi _]. done.
  - split; [done|]. intros [= Hi _]. done.
Qed.

(** X6: the current period's record.  For an organization of the store,
    with [(organization_id, period_start)] a key of [usage_tracking],
    [get_current_usage] returns a record of that organization whose period
    starts on the first day of the current month; the key is still a key
    afterwards and every earlier row is still there; a second call returns
    the same record and inserts nothing.  A record that had to be created
    ends on the last day of the month and has all six counts at 0,
    whatever other periods hold. *)
Theorem get_current_usage_record (e : env) (i : uuid) (db : database) :
  references_organization db (Some i) = true →
  NoDup (map usage_key (usage_tracking db)) →
  ∃ r db',
    get_current_usage e (Some i) db = Return (r, db') ∧
    usage_key r = (i, month_start (CURRENT_DATE e)) ∧
    r ∈ usage_tracking db' ∧
    NoDup (map usage_key (usage_tracking db')) ∧
    usage_tracking db `prefix_of` usage_tracking db' ∧
    get_current_usage e (Some i) db' = Return (r, db') ∧
    (current_record e (Some i) db = None →
       usage_tracking db' = usage_tracking db ++ [r] ∧
       u_period_end r = month_end (CURRENT_DATE e) ∧
       counter_value Emails r = Some 0 ∧ counter_value Sms r = Some 0 ∧
       counter_value AiAnalyses r = Some 0 ∧
       snapshot_counts r = (Some 0, Some 0, Some 0)).
Proof.
  intros Hfk Hkey.
  destruct (get_current_usage_total e i db Hfk)
    as (r & db' & Hrun & Hcur & _ & Hold).
  exists r, db'. split; [exact Hrun|].
  pose proof Hcur as Hfound. apply find_cond in Hfound as [Hrow Hin].
  apply current_usage_row_key in Hrow.
  split; [exact Hrow|]. split; [exact Hin|].
  destruct (current_record e (Some i) db) as [r0|] eqn:Hdb.
  - destruct (Hold r0 eq_refl) as [-> ->].
    split; [done|]. split; [done|].
    split; [by apply get_current_usage_found|]. done.
  - assert (usage_tracking db' = usage_tracking db ++ [r] ∧
            u_period_end r = month_end (CURRENT_DATE e) ∧
            counter_value Emails r = Some 0 ∧ counter_value Sms r = Some 0 ∧
            counter_value AiAnalyses r = Some 0 ∧
            snapshot_counts r = (Some 0, Some 0, Some 0)) as Hnew.
    { revert Hrun. unfold get_current_usage. unfold current_record in Hdb.
      rewrite Hdb, Hfk. by intros [= <- <-]. }
    destruct Hnew as (Hrows & Hrest). rewrite Hrows.
    split.
    { rewrite fmap_app. apply NoDup_app. split; [done|].
      split; [|apply NoDup_singleton].
      intros k Hk Hk'. simpl in Hk'. apply list_elem_of_singleton in Hk'.
      subst k. apply list_elem_of_fmap in Hk as (x & Hx & Hxin).
      rewrite Hrow in Hx. symmetry in Hx.
      apply current_usage_row_key in Hx.
      pose proof (find_none_all _ _ x Hdb Hxin). congruence. }
    split; [by apply prefix_app_r|].
    split; [by apply get_current_usage_found|]. done.
Qed.

Lemma get_current_usage_record_witness :
  ∃ r db',
    get_current_usage sample_env (Some 1%N) sample_db = Return (r, db') ∧
    usage_tracking db' = [r] ∧
    u_period_start r = {| year := 2024; month := 2; day := 1 |} ∧
    u_period_end r = {| year := 2024; month := 2; day := 29 |}.
Proof.
  destruct (get_current_usage_record sample_env 1%N sample_db)
    as (r & db' & Hrun & Hkey & _ & _ & _ & _ & Hnew);
    [reflexivity | apply NoDup_nil_2 |].
  destruct (Hnew eq_refl) as (Hrows & Hend & _).
  exists r, db'. split; [exact Hrun|]. split; [exact Hrows|].
  split; [|exact Hend].
  unfold usage_key in Hkey. by injection Hkey as _ ->.
Defined.

(** X7: when the usage procedures fail.  [get_current_usage] raises only
    when the current period has no record yet and the organization is NULL
    (the NOT NULL constraint) or unknown to the store (the foreign key);
    [increment_usage] and [update_usage_snapshots] then raise the same
    error. *)
Theorem usage_procedures_raise (e : env) (org_id : option uuid)
    (db : database) (err : sql_error) :
  (get_current_usage e org_id db = Raise err ↔
     current_record e org_id db = None ∧
     ((org_id = None ∧ err = not_null_violation) ∨
      (org_id ≠ None ∧ references_organization db org_id = false ∧
       err = foreign_key_violation))) ∧
  (get_current_usage e org_id db = Raise err →
   (∀ usage_type amount,
      increment_usage e org_id usage_type amount db = Raise err) ∧
   (∀ live, update_usage_snapshots e org_id live db = Raise err)).
Proof.
  split.
  - unfold get_current_usage, current_record.
    destruct (find _ _) as [r|]; [split; [done|by intros [? _]]|].
    destruct org_id as [i|].
    + destruct (references_organization db (Some i)) eqn:Hfk.
      * split; [done|]. intros [_ [[? _]|(_ & ? & _)]]; done.
      * split.
        -- intros [= <-]. split; [done|]. right. done.
        -- intros [_ [[? _]|(_ & _ & ->)]]; done.
    + split.
      * intros [= <-]. split; [done|]. by left.
      * intros [_ [[_ ->]|(? & _)]]; done.
  - intros Hrun. split.
    + intros usage_type amount. unfold increment_usage. by rewrite Hrun.
    + intros live. unfold update_usage_snapshots. by rewrite Hrun.
Qed.

Lemma usage_procedures_raise_witness :
  get_current_usage sample_env (Some 77%N) sample_db
    = Raise foreign_key_violation ∧
  increment_usage sample_env (Some 77%N) (Some "emails") (Some 1) sample_db
    = Raise foreign_key_violation.
Proof.
  destruct (usage_procedures_raise sample_env (Some 77%N) sample_db
              foreign_key_violation) as [Hiff Hprop].
  assert (get_current_usage sample_env (Some 77%N) sample_db
          = Raise foreign_key_violation) as Hrun.
  { apply Hiff. split; [reflexivity|]. right. by repeat split. }
  split; [exact Hrun|]. by apply Hprop.
Defined.

(** ** Counters *)

Lemma increment_usage_kind (e : env) (org_id : option uuid) (k : counter)
    (amount : option Z) (db : database) :
  increment_usage e org_id (Some (counter_name k)) amount db
  = ('(_, db1) ← get_current_usage e org_id db;
     rows ← update_where (current_usage_row e org_id)
              (counter_setter e k amount) (usage_tracking db1);
     mret (true, set_usage_tracking db1 rows)).
Proof. by destruct k. Qed.

Lemma counter_setter_Return (e : env) (k : counter) (amount : option Z)
    (r r' : usage_tracking_row) :
  counter_setter e k amount r = Return r' →
  int4_add (counter_value k r) amount = Return (counter_value k r') ∧
  (∀ k', k' ≠ k → counter_value k' r' = counter_value k' r) ∧
  snapshot_counts r' = snapshot_counts r ∧
  usage_key r' = usage_key r ∧
  u_updated_at r' = Some (NOW e).
Proof.
  destruct k; simpl;
    unfold add_emails_sent, add_sms_sent, add_ai_analyses_used;
    intros Hset; apply bind_Return in Hset as (n & Hn & [= <-]);
    (split; [exact Hn|]); (split; [by intros []|]); done.
Qed.

Lemma counter_setter_Raise (e : env) (k : counter) (amount : option Z)
    (r : usage_tracking_row) (err : sql_error) :
  int4_add (counter_value k r) amount = Raise err →
  counter_setter e k amount r = Raise err.
Proof.
  destruct k; simpl;
    unfold add_emails_sent, add_sms_sent, add_ai_analyses_used;
    by intros ->.
Qed.


Lemma counter_setter_row (e : env) (org_id : option uuid) (k : counter)
    (amount : option Z) (r r' : usage_tracking_row) :
  counter_setter e k amount r = Return r' →
  current_usage_row e org_id r' = current_usage_row e org_id r.
Proof.
  intros Hset. apply counter_setter_Return in Hset as (_ & _ & _ & Hkey & _).
  unfold usage_key in Hkey. injection Hkey as Ho Hp.
  unfold current_usage_row. by rewrite Ho, Hp.
Qed.

(** What [update_where] returns, row by row. *)
Lemma update_where_Return {R} (cond : R → bool) (set : R → result R)
    (rows rows' : list R) :
  update_where cond set rows = Return rows' →
  Forall2 (λ r r', if cond r then set r = Return r' else r' = r) rows rows'.
Proof.
  revert rows'. induction rows as [|r rows IH]; intros rows' Hrun.
  - injection Hrun as <-. constructor.
  - simpl in Hrun.
    apply bind_Return in Hrun as (r1 & Hr1 & Hrun).
    apply bind_Return in Hrun as (rest & Hrest & [= <-]).
    constructor; [|by apply IH].
    destruct (cond r); [done|by injection Hr1].
Qed.


Lemma find_updated {R} (cond : R → bool) (set : R → result R)
    (rows rows' : list R) (r : R) :
  (∀ x x', set x = Return x' → cond x' = cond x) →
  Forall2 (λ r r', if cond r then set r = Return r' else r' = r) rows rows' →
  find cond rows = Some r →
  ∃ r', find cond rows' = Some r' ∧ set r = Return r'.
Proof.
  intros Hkeep. induction 1 as [|x x' rows rows' Hx _ IH]; [done|]. simpl.
  destruct (cond x) eqn:Hc.
  - intros [= <-]. exists x'. by rewrite (Hkeep _ _ Hx), Hc.
  - subst x'. rewrite Hc. exact IH.
Qed.

Lemma get_current_usage_after (e : env) (org_id : option uuid)
    (db : database) (r : usage_tracking_row) (db' : database) :
  get_current_usage e org_id db = Return (r, db') →
  current_record e org_id db' = Some r.
Proof.
  unfold get_current_usage, current_record.
  destruct (find _ (usage_tracking db)) as [r0|] eqn:Hfind;
    [by intros [= <- <-]|].
  destruct org_id as [i|]; [|done].
  destruct (references_organization _ _); [|done].
  intros [= <- <-]. simpl. rewrite find_app_None by done. simpl.
  unfold current_usage_row. simpl.
  by rewrite N.eqb_refl, date_eqb_refl.
Qed.



(** X9: a counter never wraps.  When the period's record holds a counter
    whose sum with the amount does not fit INTEGER, [increment_usage]
    raises [numeric_value_out_of_range] instead of storing anything. *)
Theorem increment_usage_overflow (e : env) (org_id : option uuid)
    (k : counter) (c a : Z) (db : database) (r0 : usage_tracking_row) :
  current_record e org_id db = Some r0 →
  counter_value k r0 = Some c →
  in_int4 (c + a) = false →
  increment_usage e org_id (Some (counter_name k)) (Some a) db
  = Raise numeric_value_out_of_range.
Proof.
  intros Hcur Hc Hout.
  rewrite increment_usage_kind, (get_current_usage_found _ _ _ _ Hcur).
  simpl.
  rewrite (update_where_raise _ _ _ r0 numeric_value_out_of_range); [done..|].
  apply counter_setter_Raise. rewrite Hc. simpl. unfold int4_plus.
  by rewrite Hout.
Qed.

Lemma increment_usage_overflow_witness :
  ∃ db1,
    increment_usage sample_env (Some 1%N) (Some "emails") (Some int4_max)
      sample_db = Return (true, db1) ∧
    increment_usage sample_env (Some 1%N) (Some "emails") (Some 1) db1
      = Raise numeric_value_out_of_range.
Proof.
  eexists. split; [reflexivity|].
  eapply (increment_usage_overflow sample_env (Some 1%N) Emails int4_max 1);
    reflexivity.
Defined.

Lemma int4_add_twice (v n1 n2 n3 : option Z) (a b : Z) :
  int4_add v (Some a) = Return n1 →
  int4_add n1 (Some b) = Return n2 →
  int4_add v (Some (a + b)) = Return n3 →
  n2 = n3.
Proof.
  destruct v as [c|]; simpl.
  - unfold int4_plus. destruct (in_int4 (c + a)); [|done]. simpl.
    intros [= <-]. simpl. unfold int4_plus.
    destruct (in_int4 (c + a + b)); [|done]. simpl. intros [= <-].
    destruct (in_int4 (c + (a + b))); [|done]. simpl. intros [= <-].
    f_equal. lia.
  - intros [= <-]. simpl. intros [= <-]. by intros [= <-].
Qed.

Lemma counter_setter_twice (e : env) (k : counter) (a b : Z)
    (r r1 r2 r3 : usage_tracking_row) :
  counter_setter e k (Some a) r = Return r1 →
  counter_setter e k (Some b) r1 = Return r2 →
  counter_setter e k (Some (a + b)) r = Return r3 →
  r2 = r3.
Proof.
  destruct k; simpl;
    unfold add_emails_sent, add_sms_sent, add_ai_analyses_used;
    intros H1 H2 H3;
    apply bind_Return in H1 as (n1 & Hn1 & [= <-]);
    apply bind_Return in H2 as (n2 & Hn2 & [= <-]);
    apply bind_Return in H3 as (n3 & Hn3 & [= <-]);
    simpl in *;
    by rewrite (int4_add_twice _ _ _ _ _ _ Hn1 Hn2 Hn3).
Qed.

Lemma update_where_twice {R} (cond : R → bool) (s1 s2 s3 : R → result R)
    (rows rows1 rows2 rows3 : list R) :
  (∀ r r1, s1 r = Return r1 → cond r1 = cond r) →
  (∀ r r1 r2 r3, s1 r = Return r1 → s2 r1 = Return r2 →
                 s3 r = Return r3 → r2 = r3) →
  update_where cond s1 rows = Return rows1 →
  update_where cond s2 rows1 = Return rows2 →
  update_where cond s3 rows = Return rows3 →
  rows2 = rows3.
Proof.
  intros Hkeep Hsame. revert rows1 rows2 rows3.
  induction rows as [|r rows IH]; intros rows1 rows2 rows3 H1 H2 H3.
  - injection H1 as <-. injection H2 as <-. by injection H3 as <-.
  - simpl in H1, H3.
    apply bind_Return in H1 as (x1 & Hx1 & H1).
    apply bind_Return in H1 as (t1 & Ht1 & [= <-]).
    apply bind_Return in H3 as (x3 & Hx3 & H3).
    apply bind_Return in H3 as (t3 & Ht3 & [= <-]).
    simpl in H2.
    apply bind_Return in H2 as (x2 & Hx2 & H2).
    apply bind_Return in H2 as (t2 & Ht2 & [= <-]).
    f_equal; [|by eapply IH].
    destruct (cond r) eqn:Hc.
    + rewrite (Hkeep _ _ Hx1), Hc in Hx2. by eapply Hsame.
    + injection Hx1 as <-. rewrite Hc in Hx2. congruence.
Qed.

(** X10: increments accumulate.  Incrementing a counter by [a] and then by
    [b] leaves exactly the database that a single increment by [a + b]
    leaves. *)
Theorem increment_usage_accumulates (e : env) (org_id : option uuid)
    (k : counter) (a b : Z) (db db1 db2 db3 : database) :
  increment_usage e org_id (Some (counter_name k)) (Some a) db
    = Return (true, db1) →
  increment_usage e org_id (Some (counter_name k)) (Some b) db1
    = Return (true, db2) →
  increment_usage e org_id (Some (counter_name k)) (Some (a + b)) db
    = Return (true, db3) →
  db2 = db3.
Proof.
  rewrite !increment_usage_kind. intros H1 H2 H3.
  apply bind_Return in H1 as ([r0 db0] & Hget & H1).
  apply bind_Return in H1 as (rows1 & Hrows1 & [= <-]).
  apply bind_Return in H3 as ([r0' db0'] & Hget' & H3).
  rewrite Hget in Hget'. injection Hget' as <- <-.
  apply bind_Return in H3 as (rows3 & Hrows3 & [= <-]).
  pose proof (update_where_Return _ _ _ _ Hrows1) as Hall.
  destruct (find_updated _ _ _ _ r0 (counter_setter_row e org_id k (Some a))
              Hall (get_current_usage_after _ _ _ _ _ Hget))
    as (r1 & Hfind & _).
  rewrite (get_current_usage_found e org_id (set_usage_tracking db0 rows1) r1)
    in H2 by done.
  simpl in H2.
  apply bind_Return in H2 as (rows2 & Hrows2 & [= <-]).
  unfold set_usage_tracking. simpl. f_equal.
  eapply (update_where_twice _ _ _ _ _ _ _ _
            (counter_setter_row e org_id k (Some a))
            (counter_setter_twice e k a b) Hrows1 Hrows2 Hrows3).
Qed.

Lemma increment_usage_accumulates_witness :
  ∃ db1 db2,
    increment_usage sample_env (Some 1%N) (Some "emails") (Some 5) sample_db
      = Return (true, db1) ∧
    increment_usage sample_env (Some 1%N) (Some "emails") (Some 10) db1
      = Return (true, db2) ∧
    increment_usage sample_env (Some 1%N) (Some "emails") (Some 15) sample_db
      = Return (true, db2).
Proof.
  eexists _, _. split; [reflexivity|]. split; [reflexivity|].
  assert (∃ db3, increment_usage sample_env (Some 1%N) (Some "emails")
                   (Some (5 + 10)) sample_db = Return (true, db3))
    as [db3 H3] by (by eexists).
  rewrite <- (increment_usage_accumulates sample_env (Some 1%N) Emails 5 10
                sample_db _ _ db3 eq_refl eq_refl H3) in H3.
  exact H3.
Defined.

(** ** Snapshots *)

Lemma set_snapshots_row (e : env) (org_id : option uuid) (p a c : Z)
    (r : usage_tracking_row) :
  current_usage_row e org_id (set_snapshots e p a c r)
  = current_usage_row e org_id r.
Proof. done. Qed.




(** * Further properties of the plan-limits module *)

Local Open Scope float_scope.

(** ** What the calls do to the heap *)

Lemma M_bind_Ok {A B} (m : M A) (f : A → M B) (h h' : heap) (b : B) :
  (m ≫= f) h = Ok (b, h') →
  ∃ a h1, m h = Ok (a, h1) ∧ f a h1 = Ok (b, h').
Proof.
  unfold mbind, M_bind. destruct (m h) as [[a h1]| |]; [|done..].
  intros Hf. by exists a, h1.
Qed.

Lemma keeps_mret {A} (a : A) : keeps_heap (mret a).
Proof. intros h b h'. unfold mret, M_ret. by intros [= _ <-]. Qed.

Lemma keeps_bind {A B} (m : M A) (f : A → M B) :
  keeps_heap m → (∀ a, keeps_heap (f a)) → keeps_heap (m ≫= f).
Proof.
  intros Hm Hf h b h' Hrun.
  apply M_bind_Ok in Hrun as (a & h1 & Hrun & Hrest).
  apply Hm in Hrun as ->. by apply Hf in Hrest.
Qed.

Lemma keeps_get_prop (v : value) (k : string) : keeps_heap (get_prop v k).
Proof.
  intros h w h'. unfold get_prop.
  destruct v; try done. destruct (h !! l); [|done]. by intros [= _ <-].
Qed.

Lemma keeps_lift_num (o : option float) : keeps_heap (lift_num o).
Proof. destruct o; [apply keeps_mret|done]. Qed.

Lemma keeps_throw {A} (err : js_error) : keeps_heap (throw (A := A) err).
Proof. done. Qed.

Lemma keeps_unsupported {A} : keeps_heap (unsupported (A := A)).
Proof. done. Qed.

Ltac keeps :=
  repeat first
    [ apply keeps_mret | apply keeps_get_prop | apply keeps_lift_num
    | apply keeps_throw | apply keeps_unsupported
    | apply keeps_bind; [|intros ?]
    | match goal with
      | |- keeps_heap (if ?b then _ else _) => destruct b
      | |- keeps_heap (match ?x with _ => _ end) => destruct x
      end ].

Lemma keeps_getPlanLimits (org : option organization) :
  keeps_heap (getPlanLimits org).
Proof. unfold getPlanLimits. keeps. Qed.

Lemma keeps_js_add (a b : value) : keeps_heap (js_add a b).
Proof. unfold js_add. keeps. Qed.

Lemma keeps_js_gt (a b : value) : keeps_heap (js_gt a b).
Proof. unfold js_gt. keeps. Qed.

Lemma keeps_getUsagePercent (used limit : value) :
  keeps_heap (getUsagePercent used limit).
Proof. unfold getUsagePercent. keeps; apply keeps_js_gt. Qed.

Lemma keeps_formatLimit (v : value) : keeps_heap (formatLimit v).
Proof. unfold formatLimit. keeps. Qed.

Lemma keeps_getLimitMessage (key : string) (limit plan : value) :
  keeps_heap (getLimitMessage key limit plan).
Proof. unfold getLimitMessage. keeps; apply keeps_formatLimit. Qed.

Lemma getOrgLimits_heap (h h' : heap) (org : option organization)
    (v : value) :
  getOrgLimits org h = Ok (v, h') →
  match org ≫= plan_limits_override with
  | None => h' = h
  | Some override =>
      ∃ base, h' = h ++ [override ∪ base] ∧ v = VRef (length h)
  end.
Proof.
  unfold getOrgLimits. destruct org as [o|].
  - change (Some o ≫= plan_limits_override) with (plan_limits_override o).
    destruct (plan_limits_override o) as [override|].
    + intros Hrun.
      apply M_bind_Ok in Hrun as (base & h1 & Hbase & Hrun).
      apply (keeps_getPlanLimits (Some o)) in Hbase as ->.
      apply M_bind_Ok in Hrun as (props & h2 & Hprops & Hrun).
      assert (h2 = h) as ->.
      { revert Hprops. unfold spread. destruct base; try done;
          try (by intros [= _ <-]).
        destruct (h !! l); [|done]. by intros [= _ <-]. }
      unfold alloc in Hrun. injection Hrun as <- <-. by exists props.
    + apply (keeps_getPlanLimits (Some o)).
  - change (None ≫= plan_limits_override) with (@None obj).
    apply keeps_get_prop.
Qed.

(** X12: what a check does to the heap.  On any heap, a returning
    [checkLimit] leaves every existing object, the catalog included, as it
    was: without an override nothing changes at all, and with an override
    exactly one object - the merged limits - is added. *)
Theorem checkLimit_heap_frame (h h' : heap) (org : option organization)
    (usage : obj) (key : string) (increment : value) (r : limit_check) :
  checkLimit org usage key increment h = Ok (r, h') →
  (∀ a o, h !! a = Some o → h' !! a = Some o) ∧
  (org ≫= plan_limits_override = None → h' = h) ∧
  (is_Some (org ≫= plan_limits_override) → length h' = S (length h)).
Proof.
  unfold checkLimit. cbv zeta. intros Hrun.
  apply M_bind_Ok in Hrun as (lim & h1 & Hlim & Hrun).
  assert (h' = h1) as ->.
  { revert Hrun. apply (keeps_bind (get_prop lim key)); [apply keeps_get_prop|].
    intros limit. keeps;
      first [apply keeps_js_add | apply keeps_js_gt
            | apply keeps_getLimitMessage | apply keeps_getUsagePercent]. }
  apply getOrgLimits_heap in Hlim.
  destruct (org ≫= plan_limits_override) as [override|].
  - destruct Hlim as (base & -> & _). split; [|split].
    + intros a o Ha. by apply lookup_app_l_Some.
    + done.
    + intros _. rewrite length_app. simpl. lia.
  - subst h1. split; [done|]. split; [done|]. by intros [? ?].
Qed.

Lemma checkLimit_heap_frame_witness :
  ∃ r h',
    checkLimit
      (Some {| plan_type := Some "free"; appsumo_tier := None;
               subscription_tier := None;
               plan_limits_override := Some {[ "projects" := VNum 2 ]} |})
      {[ "projects" := VNum 1 ]} "projects" (VNum 1) initial_heap
    = Ok (r, h') ∧
    length h' = 11%nat ∧ h' !! free_loc = Some PLAN_LIMITS_free.
Proof.
  assert (∃ r h',
    checkLimit
      (Some {| plan_type := Some "free"; appsumo_tier := None;
               subscription_tier := None;
               plan_limits_override := Some {[ "projects" := VNum 2 ]} |})
      {[ "projects" := VNum 1 ]} "projects" (VNum 1) initial_heap
    = Ok (r, h')) as (r & h' & Hrun).
  { destruct (checkLimit_numeric initial_heap
                (initial_heap ++ [{[ "projects" := VNum 2 ]} ∪ PLAN_LIMITS_free])
                {| plan_type := Some "free"; appsumo_tier := None;
                   subscription_tier := None;
                   plan_limits_override := Some {[ "projects" := VNum 2 ]} |}
                {[ "projects" := VNum 1 ]} "projects" 1 (VRef 10%nat) 2 1)
      as [msg Hrun]; [reflexivity..|].
    by eexists _, _. }
  exists r, h'. split; [exact Hrun|].
  destruct (checkLimit_heap_frame _ _ _ _ _ _ _ Hrun) as (Hkeep & _ & Hlen).
  split.
  - apply Hlen. by eexists.
  - by apply Hkeep.
Defined.

(** ** The shape of a check's result *)

(** X13: what a result carries.  Whenever [checkLimit] returns, on any
    heap and for any arguments: the bare result [{ allowed: true }],
    without [current] and [limit], is returned exactly when the resolved
    limit is -1; every other result carries the resolved limit as [limit]
    and some [current]; a denial always carries [upgradeRequired: true]
    and a message and never a warning; an allowed result never carries
    [upgradeRequired], and carries a message exactly when it carries the
    warning flag. *)
Theorem checkLimit_result_shape (h h' : heap) (org : option organization)
    (usage : obj) (key : string) (increment : value) (r : limit_check) :
  checkLimit org usage key increment h = Ok (r, h') →
  ∃ lim limit,
    getOrgLimits org h = Ok (lim, h') ∧
    get_prop lim key h' = Ok (limit, h') ∧
    (strict_eq_num limit (-1) = true →
       r = {| allowed := true; warning := None; message_of := None;
              upgradeRequired := None; current := None;
              limit_of := None |}) ∧
    (strict_eq_num limit (-1) = false →
       limit_of r = Some limit ∧ is_Some (current r)) ∧
    (allowed r = false →
       upgradeRequired r = Some true ∧ is_Some (message_of r) ∧
       warning r = None) ∧
    (allowed r = true →
       upgradeRequired r = None ∧
       (is_Some (message_of r) ↔ warning r = Some true)).
Proof.
  unfold checkLimit. cbv zeta. intros Hrun.
  apply M_bind_Ok in Hrun as (lim & h1 & Hlim & Hrun).
  apply M_bind_Ok in Hrun as (limit & h2 & Hlimit & Hrun).
  pose proof (keeps_get_prop _ _ _ _ _ Hlimit) as ->.
  exists lim, limit.
  destruct (strict_eq_num limit (-1)) eqn:Hunl.
  - unfold mret, M_ret in Hrun. injection Hrun as <- <-.
    split; [done|]. split; [done|]. split; [done|]. split; [done|].
    split; [done|]. intros _. split; [done|]. split; [by intros [? ?]|done].
  - apply M_bind_Ok in Hrun as (newUsage & h3 & Hadd & Hrun).
    apply keeps_js_add in Hadd as ->.
    apply M_bind_Ok in Hrun as (over & h3 & Hover & Hrun).
    apply keeps_js_gt in Hover as ->.
    destruct over.
    + apply M_bind_Ok in Hrun as (plan & h3 & Hplan & Hrun).
      assert (h3 = h1) as ->.
      { destruct org; [by injection Hplan as _ <-|done]. }
      apply M_bind_Ok in Hrun as (msg & h3 & Hmsg & Hrun).
      apply keeps_getLimitMessage in Hmsg as ->.
      unfold mret, M_ret in Hrun. injection Hrun as <- <-.
      split; [done|]. split; [done|]. split; [done|].
      split; [intros _; split; [done|by eexists]|].
      split; [intros _; split; [done|]; split; [by eexists|done]|done].
    + apply M_bind_Ok in Hrun as (percent & h3 & Hpct & Hrun).
      apply keeps_getUsagePercent in Hpct as ->.
      destruct (_ && _); unfold mret, M_ret in Hrun;
        injection Hrun as <- <-;
        (split; [done|]); (split; [done|]); (split; [done|]);
        (split; [intros _; split; [done|by eexists]|]);
        (split; [done|]); intros _; (split; [done|]).
      * split; [done|by eexists].
      * split; [by intros [? ?]|done].
Qed.

Lemma checkLimit_result_shape_witness :
  ∃ r h' lim limit,
    checkLimit (Some freeOrg) {[ "customers" := VNum 100 ]} "customers"
      (VNum 1) initial_heap = Ok (r, h') ∧
    getOrgLimits (Some freeOrg) initial_heap = Ok (lim, h') ∧
    get_prop lim "customers" h' = Ok (limit, h') ∧
    limit_of r = Some limit.
Proof.
  destruct (checkLimit_numeric initial_heap initial_heap freeOrg
              {[ "customers" := VNum 100 ]} "customers" 1
              (VRef free_loc) 100 100) as [msg Hrun]; [reflexivity..|].
  destruct (checkLimit_result_shape _ _ _ _ _ _ _ Hrun)
    as (lim & limit & Hlim & Hlimit & _ & Hcarry & _).
  eexists _, _, lim, limit. split; [exact Hrun|].
  split; [exact Hlim|]. split; [exact Hlimit|].
  apply Hcarry.
  assert (get_prop (VRef free_loc) "customers" initial_heap
          = Ok (VNum 100, initial_heap)) as Hfree by reflexivity.
  assert (getOrgLimits (Some freeOrg) initial_heap
          = Ok (VRef free_loc, initial_heap)) as Hres by reflexivity.
  rewrite Hres in Hlim. injection Hlim as <-.
  rewrite Hfree in Hlimit. by injection Hlimit as <-.
Defined.

(** ** A missing organization *)

Lemma getOrgLimits_null_as_free :
  getOrgLimits None = getOrgLimits (Some freeOrg).
Proof. reflexivity. Qed.

(** X14: a check without an organization.  With [null] for the
    organization the free limits apply: whatever [checkLimit] returns for
    an organization on the free plan without override, it returns for
    [null] too as long as the result is allowed; where the free
    organization is denied, the call with [null] throws a TypeError
    instead of returning the denial. *)
Theorem checkLimit_null_org (h h' : heap) (usage : obj) (key : string)
    (increment : value) (r : limit_check) :
  checkLimit (Some freeOrg) usage key increment h = Ok (r, h') →
  checkLimit None usage key increment h
  = if allowed r then Ok (r, h') else Throw TypeError.
Proof.
  unfold checkLimit. cbv zeta. rewrite getOrgLimits_null_as_free.
  intros Hrun.
  apply M_bind_Ok in Hrun as (lim & h1 & Hlim & Hrun).
  apply M_bind_Ok in Hrun as (limit & h2 & Hlimit & Hrun).
  unfold mbind at 1, M_bind at 1. rewrite Hlim.
  unfold mbind at 1, M_bind at 1. rewrite Hlimit.
  destruct (strict_eq_num limit (-1)).
  { unfold mret, M_ret in *. by injection Hrun as <- <-. }
  apply M_bind_Ok in Hrun as (newUsage & h3 & Hadd & Hrun).
  unfold mbind at 1, M_bind at 1. rewrite Hadd.
  apply M_bind_Ok in Hrun as (over & h4 & Hover & Hrun).
  unfold mbind at 1, M_bind at 1. rewrite Hover.
  destruct over.
  - apply M_bind_Ok in Hrun as (plan & h5 & Hplan & Hrun).
    apply M_bind_Ok in Hrun as (msg & h6 & Hmsg & Hrun).
    unfold mret, M_ret in Hrun. by injection Hrun as <- <-.
  - apply M_bind_Ok in Hrun as (percent & h5 & Hpct & Hrun).
    unfold mbind at 1, M_bind at 1. rewrite Hpct.
    destruct (_ && _); unfold mret, M_ret in *; by injection Hrun as <- <-.
Qed.

Lemma checkLimit_null_org_witness :
  checkLimit None {[ "customers" := VNum 100 ]} "customers" (VNum 1)
    initial_heap = Throw TypeError ∧
  ∃ r, checkLimit None {[ "customers" := VNum 20 ]} "customers" (VNum 1)
         initial_heap = Ok (r, initial_heap) ∧ allowed r = true.
Proof.
  split.
  - destruct (checkLimit_numeric initial_heap initial_heap freeOrg
                {[ "customers" := VNum 100 ]} "customers" 1
                (VRef free_loc) 100 100) as [msg Hrun]; [reflexivity..|].
    assert (PrimFloat.ltb 100 (100 + 1) = true) as Hover by reflexivity.
    rewrite Hover in Hrun.
    exact (checkLimit_null_org _ _ _ _ _ _ Hrun).
  - destruct (checkLimit_numeric initial_heap initial_heap freeOrg
                {[ "customers" := VNum 20 ]} "customers" 1
                (VRef free_loc) 100 20) as [msg Hrun]; [reflexivity..|].
    assert (PrimFloat.ltb 100 (20 + 1) = false) as Hover by reflexivity.
    assert (PrimFloat.leb 80 (percent_of (20 + 1) 100)
            && PrimFloat.ltb (percent_of (20 + 1) 100) 100 = false)
      as Hwarn by reflexivity.
    rewrite Hover, Hwarn in Hrun.
    pose proof (checkLimit_null_org _ _ _ _ _ _ Hrun) as Hnull.
    cbn [allowed] in Hnull.
    eexists. split; [exact Hnull|reflexivity].
Defined.

(** ** Overrides *)

(** The base limits always resolve to something whose own properties can
    be spread. *)
Lemma base_limits_spreadable (h : heap)
    (org : option organization) :
  catalog_intact h →
  ∃ base props,
    getPlanLimits org h = Ok (base, h) ∧ spread base h = Ok (props, h).
Proof.
  intros Hh.
  assert (∀ l, l ∈ limit_sets → ∃ props, spread (VRef l) h = Ok (props, h))
    as Hsets.
  { intros l Hl. unfold spread.
    assert (is_Some (initial_heap !! l)) as [props Hprops].
    { apply lookup_lt_is_Some. apply list_elem_of_In in Hl. simpl in Hl.
      unfold initial_heap. simpl.
      repeat (destruct Hl as [<-|Hl]; [compute; lia|]). done. }
    rewrite (intact_lookup h l props Hh Hprops). by eexists. }
  destruct org as [o|]; [|].
  2:{ exists (VRef free_loc). rewrite getPlanLimits_null by done.
      destruct (Hsets free_loc) as [props ->]; [|by eexists].
      apply list_elem_of_In. simpl. tauto. }
  destruct (decide (plan_type o = Some "appsumo_lifetime")) as [Ha|Ha].
  { rewrite getPlanLimits_appsumo by done.
    pose proof (appsumo_lookup (appsumo_tier o)) as Hin.
    apply list_elem_of_In in Hin. simpl in Hin.
    destruct Hin as [<-|[<-|[<-|[]]]]; eexists _;
      (edestruct Hsets as [props ->];
       [|by eexists]); apply list_elem_of_In; simpl; tauto. }
  destruct (decide (plan_type o = Some "subscription")) as [Hs|Hs].
  { rewrite getPlanLimits_subscription by done.
    destruct (decide (text_key (subscription_tier o) ∈ object_prototype_keys))
      as [Hkey|Hkey].
    - assert (∃ k, js_or (obj_get PLAN_LIMITS_subscription
                            (text_key (subscription_tier o)))
                         (VRef growth_loc) = VInherited k) as [k ->].
      { unfold obj_get.
        assert (PLAN_LIMITS_subscription !! text_key (subscription_tier o)
                = None) as ->.
        { unfold PLAN_LIMITS_subscription. simpl.
          rewrite !lookup_insert_ne, lookup_empty; [done|..];
            intros Heq; rewrite <- Heq in Hkey;
            by apply (bool_decide_eq_false_1 _) in Hkey. }
        rewrite bool_decide_eq_true_2 by done. by eexists. }
      by eexists _, _.
    - pose proof (subscription_lookup _ Hkey) as Hin.
      apply list_elem_of_In in Hin. simpl in Hin.
      destruct Hin as [<-|[<-|[<-|[]]]]; eexists _;
        (edestruct Hsets as [props ->];
         [|by eexists]); apply list_elem_of_In; simpl; tauto. }
  rewrite getPlanLimits_other by done. exists (VRef free_loc).
  destruct (Hsets free_loc) as [props ->]; [|by eexists].
  apply list_elem_of_In. simpl. tauto.
Qed.

(** X15: an override takes effect on every plan.  Whatever the plan type
    and tiers of the organization (valid, unknown or missing), a key
    present in [plan_limits_override] resolves to the override's value;
    so with a numeric override [L] other than -1 the check denies exactly
    when the projected usage exceeds [L], and with an override of -1 it
    allows any usage. *)
Theorem override_takes_effect (h : heap) (o : organization) (override : obj)
    (key : string) (v : value) :
  catalog_intact h →
  plan_limits_override o = Some override →
  override !! key = Some v →
  ∃ lim h',
    getOrgLimits (Some o) h = Ok (lim, h') ∧
    get_prop lim key h' = Ok (v, h') ∧
    catalog_intact h' ∧
    (∀ usage increment,
       strict_eq_num v (-1) = true →
       ∃ r, checkLimit (Some o) usage key increment h = Ok (r, h') ∧
            allowed r = true) ∧
    (∀ usage L c i,
       v = VNum L → PrimFloat.eqb L (-1) = false →
       js_or (obj_get usage key) (VNum 0) = VNum c →
       ∃ r, checkLimit (Some o) usage key (VNum i) h = Ok (r, h') ∧
            (allowed r = false ↔ PrimFloat.ltb L (c + i) = true)).
Proof.
  intros Hh Hov Hkey.
  destruct (base_limits_spreadable h (Some o) Hh)
    as (base & props & Hbase & Hprops).
  set (h' := h ++ [override ∪ props]).
  assert (getOrgLimits (Some o) h = Ok (VRef (length h), h')) as Hlim.
  { unfold getOrgLimits. rewrite Hov. unfold mbind, M_bind.
    by rewrite Hbase, Hprops. }
  assert (get_prop (VRef (length h)) key h' = Ok (v, h')) as Hget.
  { unfold get_prop, h'. rewrite lookup_app_r, Nat.sub_diag by done. simpl.
    unfold obj_get. by rewrite (lookup_union_Some_l _ _ _ _ Hkey). }
  exists (VRef (length h)), h'. split; [exact Hlim|]. split; [exact Hget|].
  split; [by apply intact_app|]. split.
  - intros usage increment Hunl. eexists.
    unfold checkLimit. cbv zeta.
    unfold mbind at 1, M_bind at 1. rewrite Hlim.
    unfold mbind at 1, M_bind at 1. rewrite Hget, Hunl. done.
  - intros usage L c i -> HL Hc.
    destruct (checkLimit_numeric h h' o usage key i _ L c Hlim Hget HL Hc)
      as [msg ->].
    eexists. split; [reflexivity|].
    destruct (PrimFloat.ltb L (c + i)); [done|]. by destruct (_ && _).
Qed.

Lemma override_takes_effect_witness :
  ∃ lim h',
    getOrgLimits
      (Some {| plan_type := Some "subscription"; appsumo_tier := None;
               subscription_tier := Some "toString";
               plan_limits_override := Some {[ "projects" := VNum 50 ]} |})
      initial_heap = Ok (lim, h') ∧
    get_prop lim "projects" h' = Ok (VNum 50, h').
Proof.
  destruct (override_takes_effect initial_heap
              {| plan_type := Some "subscription"; appsumo_tier := None;
                 subscription_tier := Some "toString";
                 plan_limits_override := Some {[ "projects" := VNum 50 ]} |}
              {[ "projects" := VNum 50 ]} "projects" (VNum 50)
              initial_heap_intact eq_refl (lookup_singleton_eq _ _))
    as (lim & h' & Hlim & Hget & _).
  by exists lim, h'.
Defined.

(** ** The guard of the project form *)

Lemma js_or_idem (a b : value) : js_or (js_or a b) b = js_or a b.
Proof.
  unfold js_or. destruct (truthy a) eqn:Ha; [by rewrite Ha|].
  by destruct (truthy b).
Qed.

Lemma obj_get_singleton (k : string) (v : value) :
  obj_get {[ k := v ]} k = v.
Proof. unfold obj_get. by rewrite lookup_singleton_eq. Qed.

(** X16: when the form blocks.  With the limits and the usage loaded and
    [checkLimit] defined, [handleCreateProject] stops before creating the
    project exactly when the organization's resolved [projects] limit [L]
    is not -1 and is exceeded by the recorded project count plus one.  The
    limit is resolved anew from the organization: of the loaded
    [orgLimits] only its truthiness is consulted, and of the usage record
    only [projects_count]. *)
Theorem handleCreateProject_guard_blocks (h h' : heap) (o : organization)
    (orgLimits lim : value) (usage_record : obj) (L c : float) :
  truthy orgLimits = true →
  getOrgLimits (Some o) h = Ok (lim, h') →
  get_prop lim "projects" h' = Ok (VNum L, h') →
  js_or (obj_get usage_record "projects_count") (VNum 0) = VNum c →
  handleCreateProject_guard orgLimits (Some usage_record) (Some o) true h
  = Ok (negb (PrimFloat.eqb L (-1)) && PrimFloat.ltb L (c + 1), h').
Proof.
  intros Hloaded Hlim Hget Hc.
  unfold handleCreateProject_guard. rewrite Hloaded, Hc.
  change (true && true) with true. cbv iota.
  rewrite checkLimit_default_increment.
  destruct (PrimFloat.eqb L (-1)) eqn:HL.
  - unfold mbind at 1, M_bind at 1.
    unfold checkLimit. cbv zeta.
    unfold mbind at 1, M_bind at 1. rewrite Hlim.
    unfold mbind at 1, M_bind at 1. rewrite Hget.
    change (strict_eq_num (VNum L) (-1)) with (PrimFloat.eqb L (-1)).
    by rewrite HL.
  - assert (js_or (obj_get {[ "projects" := VNum c ]} "projects") (VNum 0)
            = VNum c) as Hsnap.
    { rewrite obj_get_singleton, <- Hc. apply js_or_idem. }
    destruct (checkLimit_numeric h h' o {[ "projects" := VNum c ]}
                "projects" 1 lim L c Hlim Hget HL Hsnap) as [msg Hrun].
    unfold mbind, M_bind. rewrite Hrun.
    destruct (PrimFloat.ltb L (c + 1)); [done|]. by destruct (_ && _).
Qed.

Lemma handleCreateProject_guard_blocks_witness :
  handleCreateProject_guard (VRef free_loc)
    (Some {[ "projects_count" := VNum 1; "customers_count" := VNum 3 ]})
    (Some freeOrg) true initial_heap
  = Ok (true, initial_heap).
Proof.
  apply (handleCreateProject_guard_blocks initial_heap initial_heap freeOrg
           (VRef free_loc) (VRef free_loc) _ 1 1); reflexivity.
Defined.

(** ** Upgrade options *)

Lemma upgrades_keys (k : string) (u : upgrade_entry) :
  upgrades !! k = Some u →
  (k = "growth" ∧ u = {| upgrade_tier := "business";
                         upgrade_name := "Business";
                         upgrade_price := 99%Z |}) ∨
  (k = "business" ∧ u = {| upgrade_tier := "enterprise";
                           upgrade_name := "Enterprise";
                           upgrade_price := 249%Z |}).
Proof.
  unfold upgrades. simpl. intros Hk.
  destruct (decide (k = "growth")) as [->|Hg].
  { rewrite lookup_insert_eq in Hk. left. split; congruence. }
  rewrite lookup_insert_ne in Hk by done.
  destruct (decide (k = "business")) as [->|Hb].
  { rewrite lookup_insert_eq in Hk. right. split; congruence. }
  by rewrite lookup_insert_ne, lookup_empty in Hk.
Qed.

Lemma plan_cases (o : organization) :
  (plan_type o = Some "appsumo_lifetime" ∧
   strict_eq_str (text_value (plan_type o)) "appsumo_lifetime" = true) ∨
  (plan_type o = Some "subscription" ∧
   strict_eq_str (text_value (plan_type o)) "appsumo_lifetime" = false ∧
   strict_eq_str (text_value (plan_type o)) "subscription" = true) ∨
  (plan_type o ≠ Some "appsumo_lifetime" ∧
   plan_type o ≠ Some "subscription" ∧
   strict_eq_str (text_value (plan_type o)) "appsumo_lifetime" = false ∧
   strict_eq_str (text_value (plan_type o)) "subscription" = false).
Proof.
  destruct (plan_type o) as [s|]; [|right; right; by repeat split].
  destruct (decide (s = "appsumo_lifetime")) as [->|Ha]; [by left|].
  destruct (decide (s = "subscription")) as [->|Hs];
    [right; left; by repeat split|].
  right. right. simpl. split; [congruence|]. split; [congruence|].
  split; by apply String.eqb_neq.
Qed.

(** X17: the offers agree with the catalog.  Whenever an option returned
    by [getUpgradeOptions] names a tier, that tier is an own entry of
    [PLAN_LIMITS.subscription]; the option's label is "Upgrade to "
    followed by the entry's [name], its description starts with the
    entry's [price_monthly] as "$<price>/month - ", and its action is
    "upgrade". *)
Theorem upgrade_offers_match_catalog (o : organization)
    (opts : list upgrade_option) (opt : upgrade_option) (t : string) :
  getUpgradeOptions (Some o) = Ok opts →
  opt ∈ opts →
  tier opt = Some t →
  ∃ l entry name price,
    PLAN_LIMITS_subscription !! t = Some (VRef l) ∧
    initial_heap !! l = Some entry ∧
    entry !! "name" = Some (VStr name) ∧
    entry !! "price_monthly" = Some (VNum (float_of_Z price)) ∧
    label opt = "Upgrade to " +:+ name ∧
    String.prefix ("$" +:+ pretty price +:+ "/month - ") (description opt)
      = true ∧
    action opt = "upgrade".
Proof.
  unfold getUpgradeOptions. cbv zeta. intros Hrun Hin Htier.
  destruct (plan_cases o) as [[_ Ha]|[(_ & Ha & Hs)|(_ & _ & Ha & Hs)]].
  - rewrite Ha in Hrun. injection Hrun as <-.
    destruct (below_3 _); simpl in Hin;
      repeat (apply elem_of_cons in Hin as [->|Hin]; [done|]);
      by apply elem_of_nil in Hin.
  - rewrite Ha, Hs in Hrun.
    destruct (upgrades !! _) as [u|] eqn:Hu.
    + injection Hrun as <-. apply list_elem_of_singleton in Hin as ->.
      simpl in Htier. injection Htier as <-.
      apply upgrades_keys in Hu as [[_ ->]|[_ ->]].
      * by exists business_loc, PLAN_LIMITS_subscription_business,
          "Business", 99%Z.
      * by exists enterprise_loc, PLAN_LIMITS_subscription_enterprise,
          "Enterprise", 249%Z.
    + destruct (bool_decide _); [done|]. injection Hrun as <-.
      by apply elem_of_nil in Hin.
  - rewrite Ha, Hs in Hrun. injection Hrun as <-.
    apply elem_of_cons in Hin as [->|Hin].
    + simpl in Htier. injection Htier as <-.
      by exists growth_loc, PLAN_LIMITS_subscription_growth, "Growth", 39%Z.
    + apply list_elem_of_singleton in Hin as ->. done.
Qed.

Lemma upgrade_offers_match_catalog_witness :
  ∃ l entry name price,
    PLAN_LIMITS_subscription !! "business" = Some (VRef l) ∧
    initial_heap !! l = Some entry ∧
    entry !! "name" = Some (VStr name) ∧
    entry !! "price_monthly" = Some (VNum (float_of_Z price)) ∧
    "Upgrade to Business" = "Upgrade to " +:+ name ∧
    String.prefix ("$" +:+ pretty price +:+ "/month - ")
      "$99/month - More projects, automations, and customers" = true ∧
    "upgrade" = "upgrade".
Proof.
  apply (upgrade_offers_match_catalog
           {| plan_type := Some "subscription"; appsumo_tier := None;
              subscription_tier := Some "growth";
              plan_limits_override := None |}
           _ {| type := "upgrade_tier"; label := "Upgrade to Business";
                description :=
                  "$99/month - More projects, automations, and customers";
                action := "upgrade"; tier := Some "business" |}
           "business" eq_refl).
  - apply list_elem_of_singleton. reflexivity.
  - reflexivity.
Defined.

Lemma found_organization_referenced (db : database) (i : uuid)
    (row : organizations_row) :
  find (org_matches (Some i)) (organizations db) = Some row →
  references_organization db (Some i) = true.
Proof.
  intros Hrow. apply find_cond in Hrow as [Hid Hin].
  apply org_matches_id in Hid. injection Hid as ->.
  unfold references_organization. apply existsb_exists.
  exists (o_id row). split; [|apply N.eqb_refl].
  apply in_map. by apply list_elem_of_In.
Qed.

(** X18: the stacking offer is made when stacking helps.  Take a lifetime
    organization whose tier, as the page holds it, is the tier of its row
    and lies within the schema's range, and any unredeemed code with a
    tier of 1, 2 or 3.  Redeeming the code succeeds, and
    [getUpgradeOptions] offers "stack_code" exactly when the tier that
    [redeem_appsumo_code] reports differs from the tier the organization
    already has. *)
Theorem stack_offer_iff_stacking_helps (e : env) (db : database) (i : uuid)
    (row : organizations_row) (o : organization) (code : option string)
    (c : appsumo_codes_row) :
  find (org_matches (Some i)) (organizations db) = Some row →
  plan_type o = Some "appsumo_lifetime" →
  appsumo_tier o = o_appsumo_tier row →
  tier_in_range (o_appsumo_tier row) →
  find (code_matches code) (appsumo_codes db) = Some c →
  is_true (c_is_redeemed c) = false →
  code_tier_checked c →
  ∃ opts r db',
    getUpgradeOptions (Some o) = Ok opts ∧
    redeem_appsumo_code e (Some i) code db = Return (r, db') ∧
    r !! "success" = Some (JBool true) ∧
    ((∃ opt, opt ∈ opts ∧ type opt = "stack_code") ↔
     (∀ t, o_appsumo_tier row = Some t → r !! "tier" ≠ Some (JInt t))).
Proof.
  intros Hrow Hplan Htier Hrange Hc Hunredeemed Hchecked.
  pose proof (redeem_success e db (Some i) code c Hc Hunredeemed
                (found_organization_referenced db i row Hrow)) as Hrun.
  cbv zeta in Hrun. rewrite Hrow in Hrun.
  change (Some row ≫= o_appsumo_tier) with (o_appsumo_tier row) in Hrun.
  assert (∀ t, o_appsumo_tier row = Some t → in_int4 (t + c_tier c) = true)
    as Hsmall.
  { intros t Ht. rewrite Ht in Hrange. by apply small_sum_in_int4. }
  specialize (Hrun Hsmall).
  unfold getUpgradeOptions. cbv zeta. rewrite Hplan, Htier.
  change (strict_eq_str _ "appsumo_lifetime") with true. cbv iota.
  eexists _, _, _. split; [reflexivity|]. split; [exact Hrun|].
  destruct (success_json (stacked_tier (o_appsumo_tier row) (c_tier c))
              (JText ("Code redeemed successfully! Your plan has been upgraded to Tier "
                      +:+ pretty (stacked_tier (o_appsumo_tier row)
                                    (c_tier c)))))
    as [Hsuccess Hreported].
  split; [exact Hsuccess|]. rewrite Hreported.
  unfold code_tier_checked in Hchecked.
  destruct (o_appsumo_tier row) as [t|]; simpl in *.
  - destruct (Z.ltb_spec t 3) as [Hlt|Hge].
    + split.
      * intros _ t' [= <-] [= Heq]. lia.
      * intros _. eexists. split; [apply list_elem_of_here|done].
    + split.
      * intros (opt & Hin & Htype).
        apply list_elem_of_singleton in Hin as ->. done.
      * intros Hall. destruct (Hall t eq_refl). do 2 f_equal. lia.
  - split.
    + intros _ t' Ht'. done.
    + intros _. eexists. split; [apply list_elem_of_here|done].
Qed.

Lemma stack_offer_iff_stacking_helps_witness :
  ∃ opts r db',
    getUpgradeOptions
      (Some {| plan_type := Some "appsumo_lifetime"; appsumo_tier := Some 2%Z;
               subscription_tier := None; plan_limits_override := None |})
    = Ok opts ∧
    redeem_appsumo_code sample_env (Some 3%N) (Some "AUTOMATA-TEST-T1-001")
      sample_db = Return (r, db') ∧
    r !! "success" = Some (JBool true) ∧
    ∃ opt, opt ∈ opts ∧ type opt = "stack_code".
Proof.
  destruct (stack_offer_iff_stacking_helps sample_env sample_db 3%N
              (sample_org 3%N "appsumo_lifetime" (Some 2%Z) [Some "OLD-T2"]
                 None)
              {| plan_type := Some "appsumo_lifetime";
                 appsumo_tier := Some 2%Z;
                 subscription_tier := None; plan_limits_override := None |}
              (Some "AUTOMATA-TEST-T1-001")
              (sample_code 101%N "AUTOMATA-TEST-T1-001" 1%Z
                 "Test Tier 1 code")
              eq_refl eq_refl eq_refl)
    as (opts & r & db' & Hopts & Hrun & Hsuccess & Hoffer);
    [simpl; lia|reflexivity|reflexivity|unfold code_tier_checked; simpl; lia|].
  exists opts, r, db'. split; [exact Hopts|]. split; [exact Hrun|].
  split; [exact Hsuccess|].
  injection Hopts as <-. eexists. split; [apply list_elem_of_here|done].
Defined.

(** X19: who is offered what.  [getUpgradeOptions] throws a TypeError
    for a null organization.  For an organization it returns (unless the
    subscription tier names a member inherited from [Object.prototype]),
    and: the list is empty exactly for a subscriber whose tier is neither
    growth nor business; a subscriber is never offered an option with the
    action "redeem"; every other organization is offered the option
    "subscription" with the action "upgrade"; every action is "upgrade"
    or "redeem". *)
Theorem getUpgradeOptions_offers (o : organization) :
  getUpgradeOptions None = Throw TypeError ∧
  (¬ inherited_tier o →
   ∃ opts,
     getUpgradeOptions (Some o) = Ok opts ∧
     (opts = [] ↔
      plan_type o = Some "subscription" ∧
      subscription_tier o ≠ Some "growth" ∧
      subscription_tier o ≠ Some "business") ∧
     (plan_type o = Some "subscription" →
      ∀ opt, opt ∈ opts → action opt ≠ "redeem") ∧
     (plan_type o ≠ Some "subscription" →
      ∃ opt, opt ∈ opts ∧ type opt = "subscription" ∧
             action opt = "upgrade") ∧
     (∀ opt, opt ∈ opts → action opt = "upgrade" ∨ action opt = "redeem")).
Proof.
  split; [done|]. intros Hown.
  unfold getUpgradeOptions. cbv zeta.
  destruct (plan_cases o) as [[Hp Ha]|[(Hp & Ha & Hs)|(Hpa & Hps & Ha & Hs)]].
  - rewrite Ha. eexists. split; [reflexivity|].
    split; [|split; [|split]].
    + split; [by destruct (below_3 _)|]. intros [Hsub _]. congruence.
    + intros Hsub. congruence.
    + intros _. eexists.
      split; [apply elem_of_app; right; apply list_elem_of_here|done].
    + intros opt Hin. destruct (below_3 _); simpl in Hin;
        repeat (apply elem_of_cons in Hin as [->|Hin]; [auto|]);
        by apply elem_of_nil in Hin.
  - rewrite Ha, Hs.
    destruct (upgrades !! _) as [u|] eqn:Hu.
    + eexists. split; [reflexivity|]. split; [|split; [|split]].
      * split; [done|]. intros (_ & Hg & Hb).
        apply upgrades_keys in Hu as [[Hk _]|[Hk _]];
          destruct (subscription_tier o) as [s|]; simpl in Hk;
          congruence.
      * intros _ opt Hin. by apply list_elem_of_singleton in Hin as ->.
      * intros Hsub. congruence.
      * intros opt Hin. apply list_elem_of_singleton in Hin as ->. by left.
    + rewrite bool_decide_eq_false_2.
      2:{ intros Hin. apply Hown. by split. }
      eexists. split; [reflexivity|]. split; [|split; [|split]].
      * split; [|done]. intros _. split; [done|].
        split; intros Heq; rewrite Heq in Hu; done.
      * intros _ opt Hin. by apply elem_of_nil in Hin.
      * intros Hsub. congruence.
      * intros opt Hin. by apply elem_of_nil in Hin.
  - rewrite Ha, Hs. eexists. split; [reflexivity|].
    split; [|split; [|split]].
    + split; [done|]. intros [Hsub _]. congruence.
    + intros Hsub. congruence.
    + intros _. eexists. split; [apply list_elem_of_here|done].
    + intros opt Hin.
      repeat (apply elem_of_cons in Hin as [->|Hin]; [auto|]).
      by apply elem_of_nil in Hin.
Qed.

Lemma getUpgradeOptions_offers_witness :
  ∃ opts, getUpgradeOptions (Some freeOrg) = Ok opts ∧ opts ≠ [].
Proof.
  destruct (getUpgradeOptions_offers freeOrg) as [_ Hoffers].
  destruct Hoffers as (opts & Hrun & Hempty & _).
  { intros [Hsub _]. discriminate Hsub. }
  exists opts. split; [exact Hrun|].
  intros Hnil. apply Hempty in Hnil as [Hsub _]. discriminate Hsub.
Defined.

(** ** Comparisons of numbers *)

Lemma SFcompare_antisym (x y : spec_float) :
  SFcompare y x = option_map CompOpp (SFcompare x y).
Proof.
  destruct x as [sx|sx| |sx mx ex], y as [sy|sy| |sy my ey]; simpl;
    try done; try (by destruct sx); try (by destruct sy);
    try (by destruct sx, sy).
  destruct sx, sy; try done; f_equal;
    rewrite (Z.compare_antisym ex ey);
    destruct (ex ?= ey)%Z; simpl; try done;
    by rewrite ?Pos.compare_cont_antisym.
Qed.

Lemma ltb_negb_leb (x y : float) :
  Prim2SF x ≠ S754_nan → Prim2SF y ≠ S754_nan →
  PrimFloat.ltb x y = negb (PrimFloat.leb y x).
Proof.
  rewrite !FloatAxioms.leb_spec, FloatAxioms.ltb_spec.
  unfold SFleb, SFltb. intros Hx Hy.
  rewrite (SFcompare_antisym (Prim2SF x) (Prim2SF y)).
  destruct (SFcompare (Prim2SF x) (Prim2SF y)) as [[]|] eqn:Hc; try done.
  by destruct (Prim2SF x), (Prim2SF y).
Qed.

Lemma ltb_nan_l (x : float) : PrimFloat.ltb nan x = false.
Proof. rewrite FloatAxioms.ltb_spec. reflexivity. Qed.

Lemma leb_nan_r (x y : float) :
  Prim2SF y = S754_nan → PrimFloat.leb x y = false.
Proof.
  intros Hy. rewrite FloatAxioms.leb_spec, Hy. unfold SFleb.
  by destruct (Prim2SF x).
Qed.

Lemma div_nan_times (u c : float) : Prim2SF (u / nan * c) = S754_nan.
Proof.
  rewrite FloatAxioms.mul_spec, FloatAxioms.div_spec.
  change (Prim2SF nan) with S754_nan.
  assert (FloatAxioms.SF64div (Prim2SF u) S754_nan = S754_nan) as ->.
  { by destruct (Prim2SF u). }
  reflexivity.
Qed.

Lemma Math_round_nan (x : float) :
  Prim2SF x = S754_nan → Math_round x = x.
Proof. intros Hx. unfold Math_round. by rewrite Hx. Qed.

Lemma leb_number_r (a x : float) :
  PrimFloat.leb a x = true → Prim2SF x ≠ S754_nan.
Proof.
  rewrite FloatAxioms.leb_spec. unfold SFleb. intros Hle Hx.
  rewrite Hx in Hle. by destruct (Prim2SF a).
Qed.

Lemma hundred_number : Prim2SF 100 ≠ S754_nan.
Proof. by vm_compute. Qed.

(** ** Warnings and the dashboard's status classes *)

(** X20: the warning of a check is the warning class of the dashboard.
    With a numeric limit other than -1 and numeric usage, an allowed
    result of [checkLimit] carries the warning flag exactly when
    [getUsageStatus] gives the class "warning" to the percentage that
    [getUsagePercent] computes for the projected usage. *)
Theorem checkLimit_warning_matches_status (h h' : heap) (o : organization)
    (usage : obj) (key : string) (i : float) (lim : value) (L c : float) :
  getOrgLimits (Some o) h = Ok (lim, h') →
  get_prop lim key h' = Ok (VNum L, h') →
  PrimFloat.eqb L (-1) = false →
  js_or (obj_get usage key) (VNum 0) = VNum c →
  ∃ r percent,
    checkLimit (Some o) usage key (VNum i) h = Ok (r, h') ∧
    getUsagePercent (VNum (c + i)) (VNum L) h' = Ok (percent, h') ∧
    (allowed r = true →
       (warning r = Some true ↔ getUsageStatus percent = "warning")).
Proof.
  intros Hlim Hget HL Hc.
  destruct (checkLimit_numeric h h' o usage key i lim L c Hlim Hget HL Hc)
    as [msg Hrun].
  eexists _, (percent_of (c + i) L).
  split; [exact Hrun|]. split; [by apply getUsagePercent_numeric|].
  destruct (PrimFloat.ltb L (c + i)); [done|]. intros _.
  unfold getUsageStatus.
  destruct (PrimFloat.leb 80 (percent_of (c + i) L)) eqn:H80.
  - rewrite (ltb_negb_leb _ 100 (leb_number_r _ _ H80) hundred_number).
    by destruct (PrimFloat.leb 100 (percent_of (c + i) L)).
  - cbn [andb warning].
    destruct (PrimFloat.leb 100 _); [done|].
    by destruct (PrimFloat.leb 50 _).
Qed.

Lemma checkLimit_warning_matches_status_witness :
  ∃ r percent,
    checkLimit (Some freeOrg) {[ "customers" := VNum 84 ]} "customers"
      (VNum 1) initial_heap = Ok (r, initial_heap) ∧
    getUsagePercent (VNum (84 + 1)) (VNum 100) initial_heap
      = Ok (percent, initial_heap) ∧
    (allowed r = true →
       (warning r = Some true ↔ getUsageStatus percent = "warning")).
Proof.
  apply (checkLimit_warning_matches_status initial_heap initial_heap freeOrg
           {[ "customers" := VNum 84 ]} "customers" 1 (VRef free_loc)
           100 84); reflexivity.
Defined.

(** ** Limits of zero and missing limits *)

(** X21: a limit of 0.  When the resolved limit is 0 (a feature the plan
    does not include) and the usage is numeric, [checkLimit] returns; it
    denies exactly when the projected usage is positive, and an allowed
    result never carries a warning or a message. *)
Theorem checkLimit_zero_limit (h h' : heap) (o : organization)
    (usage : obj) (key : string) (i : float) (lim : value) (c : float) :
  getOrgLimits (Some o) h = Ok (lim, h') →
  get_prop lim key h' = Ok (VNum 0, h') →
  js_or (obj_get usage key) (VNum 0) = VNum c →
  ∃ r,
    checkLimit (Some o) usage key (VNum i) h = Ok (r, h') ∧
    (allowed r = false ↔ PrimFloat.ltb 0 (c + i) = true) ∧
    warning r = None ∧
    (allowed r = true → message_of r = None) ∧
    getUsagePercent (VNum (c + i)) (VNum 0) h'
      = Ok (if PrimFloat.ltb 0 (c + i) then 100 else 0, h').
Proof.
  intros Hlim Hget Hc.
  destruct (checkLimit_numeric h h' o usage key i lim 0 c Hlim Hget
              eq_refl Hc) as [msg Hrun].
  eexists. split; [exact Hrun|].
  rewrite (getUsagePercent_numeric h' (c + i) 0 eq_refl).
  unfold percent_of. change (PrimFloat.eqb 0 0) with true. cbv iota.
  destruct (PrimFloat.ltb 0 (c + i)); [done|].
  change (PrimFloat.leb 80 0 && PrimFloat.ltb 0 100) with false.
  done.
Qed.

Lemma checkLimit_zero_limit_witness :
  ∃ r,
    checkLimit (Some freeOrg) ∅ "sms_monthly" (VNum 1) initial_heap
      = Ok (r, initial_heap) ∧
    allowed r = false.
Proof.
  destruct (checkLimit_zero_limit initial_heap initial_heap freeOrg ∅
              "sms_monthly" 1 (VRef free_loc) 0)
    as (r & Hrun & Hdeny & _); [reflexivity..|].
  exists r. split; [exact Hrun|]. apply Hdeny. reflexivity.
Defined.

(** X22: a limit the plan does not define.  When the resolved limits
    have no value under the limit type ([undefined]: the type is neither
    an own property nor inherited), [checkLimit] allows any numeric
    usage with any numeric increment, without warning, for any
    organization and for [null]: the comparisons with [undefined] are all
    false. *)
Theorem checkLimit_undefined_limit (h h' : heap)
    (org : option organization) (usage : obj) (key : string) (i : float)
    (lim : value) (c : float) :
  getOrgLimits org h = Ok (lim, h') →
  get_prop lim key h' = Ok (VUndefined, h') →
  js_or (obj_get usage key) (VNum 0) = VNum c →
  checkLimit org usage key (VNum i) h
  = Ok ({| allowed := true; warning := None; message_of := None;
           upgradeRequired := None; current := Some (VNum (c + i));
           limit_of := Some VUndefined |}, h').
Proof.
  intros Hlim Hget Hc. unfold checkLimit. cbv zeta.
  unfold mbind at 1, M_bind at 1. rewrite Hlim.
  unfold mbind at 1, M_bind at 1. rewrite Hget.
  change (strict_eq_num VUndefined (-1)) with false. cbv iota.
  rewrite Hc. unfold js_add, js_gt, getUsagePercent. js_run.
  rewrite ltb_nan_l. js_run.
  rewrite (Math_round_nan _ (div_nan_times (c + i) 100)).
  by rewrite (leb_nan_r 80 _ (div_nan_times (c + i) 100)).
Qed.

Lemma checkLimit_undefined_limit_witness :
  ∃ r,
    checkLimit None {[ "emails" := VNum 100000 ]} "emails" (VNum 1)
      initial_heap = Ok (r, initial_heap) ∧
    allowed r = true.
Proof.
  eexists. split;
    [apply (checkLimit_undefined_limit initial_heap initial_heap None
              {[ "emails" := VNum 100000 ]} "emails" 1 (VRef free_loc)
              100000); reflexivity
    |reflexivity].
Defined.
